(** * Themis federation core: a shallow embedding and its properties

    The development follows the TypeScript services of the repository:
    [GroupService], [UserService], [PostService], [ApGroupService] and
    [ApUserService].  Entities are records, the TypeORM repositories are
    in-memory tables, and every [async] method is a function in a
    state-and-exception monad over the tables. *)

From stdpp Require Import base decidable option list strings pretty.
From Stdlib Require Import ZArith Lia.

Open Scope string_scope.
Open Scope list_scope.

(** ** JavaScript values met in the untyped ([any]) payloads *)

(** A leaf of a JSON payload: [null]/[undefined], a string, or some other
    value (an embedded object, a number), kept as its serialisation. *)
Inductive JValue :=
| JNull
| JStr (s : string)
| JOther (repr : string).

#[global] Instance JValue_eq_dec : EqDecision JValue.
Proof. solve_decision. Defined.

(** A nullable string column read as a JSON value. *)
Definition toJValue (o : option string) : JValue :=
  match o with
  | Some s => JStr s
  | None => JNull
  end.

(** JavaScript truthiness of a nullable string: [null], [undefined] and the
    empty string are falsy. *)
Definition truthy (o : option string) : bool :=
  match o with
  | Some s => bool_decide (s ≠ "")
  | None => false
  end.

(** The [port] property of a server object: missing ([undefined]), NULL in
    the database ([null]), or a number.  The three are told apart by
    [===]. *)
Inductive Port :=
| PortUndefined
| PortNull
| PortNumber (n : Z).

#[global] Instance Port_eq_dec : EqDecision Port.
Proof. solve_decision. Defined.

(** The [audience] property of an activity as [handleIncoming] inspects it:
    falsy, an [Array], or anything else. *)
Inductive Audience :=
| AudFalsy
| AudArray (items : list string)
| AudOther (repr : string).

#[global] Instance Audience_eq_dec : EqDecision Audience.
Proof. solve_decision. Defined.

(** ** Exceptions and promise outcomes *)

Inductive Exception :=
| BadRequestException (message : option string)
| NotImplementedException
| ImATeapotException
| NotFoundException (message : string)
| InternalServerErrorException (cause : Exception)
| Error (message : string)
| TypeError.

Inductive Result (A : Type) :=
| Ok (a : A)
| Err (e : Exception).
Arguments Ok {A} a.
Arguments Err {A} e.

(** [needle] occurs in [hay]. *)
Definition contains (needle hay : string) : Prop :=
  ∃ pre post, hay = pre +:+ needle +:+ post.

(** ** Entities *)

Module Server.
Record t := mk { scheme : string; host : string; port : Port }.
#[global] Instance eq_dec : EqDecision t.
Proof. solve_decision. Defined.
End Server.

(** [Post]: the columns the modelled operations read or write. *)
Module Post.
Record t := mk {
  id : nat;
  uuid : string;
  uri : option string;
  server : Server.t;
  subject : string;
  content : string;
  deleted : bool
}.
#[global] Instance eq_dec : EqDecision t.
Proof. solve_decision. Defined.
Definition setDeleted (b : bool) (p : t) : t :=
  mk (id p) (uuid p) (uri p) (server p) (subject p) (content p) b.
End Post.

(** [User]: [liked] is the many-to-many relation of liked posts; it is
    [None] on an object whose relation was never filled in. *)
Module User.
Record t := mk {
  id : nat;
  uri : option string;
  name : string;
  server : Server.t;
  liked : option (list Post.t)
}.
#[global] Instance eq_dec : EqDecision t.
Proof. solve_decision. Defined.
Definition setLiked (l : option (list Post.t)) (u : t) : t :=
  mk (id u) (uri u) (name u) (server u) l.
End User.

Module ActorEntity.
Record t := mk {
  uri : string;
  inbox : string;
  outbox : string;
  followers : string;
  following : string
}.
#[global] Instance eq_dec : EqDecision t.
Proof. solve_decision. Defined.
End ActorEntity.

Module Group.
Record t := mk {
  id : nat;
  name : string;
  uri : option string;
  server : Server.t;
  followingUsers : option (list User.t);
  actor : ActorEntity.t
}.
#[global] Instance eq_dec : EqDecision t.
Proof. solve_decision. Defined.
Definition setFollowingUsers (l : option (list User.t)) (g : t) : t :=
  mk (id g) (name g) (uri g) (server g) l (actor g).
End Group.

(** The body of a POST to an inbox or outbox. *)
Module Payload.
Record t := mk {
  id : JValue;
  type : string;
  actor : JValue;
  object : JValue;
  target : JValue;
  audience : Audience;
  content : JValue
}.
#[global] Instance eq_dec : EqDecision t.
Proof. solve_decision. Defined.
Definition setAudience (a : Audience) (p : t) : t :=
  mk (id p) (type p) (actor p) (object p) (target p) a (content p).
End Payload.

Module Activity.
Record t := mk {
  uri : option string;
  type : string;
  sourceUser : option User.t;
  sourceGroup : option Group.t;
  targetUser : option User.t;
  targetPost : option Post.t;
  destinationGroups : option (list Group.t);
  destinationUsers : option (list (option User.t));
  activityObject : Payload.t
}.
#[global] Instance eq_dec : EqDecision t.
Proof. solve_decision. Defined.
Definition setDestinationGroups (l : option (list Group.t)) (a : t) : t :=
  mk (uri a) (type a) (sourceUser a) (sourceGroup a) (targetUser a)
     (targetPost a) l (destinationUsers a) (activityObject a).
Definition setActivityObject (p : Payload.t) (a : t) : t :=
  mk (uri a) (type a) (sourceUser a) (sourceGroup a) (targetUser a)
     (targetPost a) (destinationGroups a) (destinationUsers a) p.
Definition setUri (u : option string) (a : t) : t :=
  mk u (type a) (sourceUser a) (sourceGroup a) (targetUser a)
     (targetPost a) (destinationGroups a) (destinationUsers a) (activityObject a).
End Activity.

(** ** Identity resolver: [idForUser] and [idForGroup] *)

(** The argument of [URI.serialize] (package uri-js). *)
Module URIComponents.
Record t := mk {
  scheme : string;
  host : string;
  port : Port;
  path : string
}.
End URIComponents.

Module AP.
(** Modelled from the spec: the constants of [definitions/constants] are
    missing from the sources; the actor representation fixes the four
    addresses as [<id>/inbox/], [<id>/outbox/], [<id>/followers/] and
    [<id>/following/]. *)
Definition InboxAddress : string := "inbox".
Definition OutboxAddress : string := "outbox".
Definition FollowersAddress : string := "followers".
Definition FollowingAddress : string := "following".
End AP.

(** The Actor object of a user or group: its identifier and addresses. *)
Module Actor.
Record t := mk {
  id : string;
  type : string;
  preferredUsername : string;
  inbox : string;
  outbox : string;
  followers : string;
  following : string
}.
End Actor.

Section Identity.

(** [URI.serialize] belongs to the uri-js package, not to the repository. *)
Variable serialize : URIComponents.t → string.

(** [ApUserService.idForUser]; [UserService.idForUser] has the same body. *)
Definition idForUser (user : User.t) : string :=
  if truthy (User.uri user) then default "" (User.uri user)
  else serialize (URIComponents.mk
                    (Server.scheme (User.server user))
                    (Server.host (User.server user))
                    (Server.port (User.server user))
                    ("/user/" +:+ User.name user)).

(** [GroupService.idForGroup] *)
Definition idForGroup (group : Group.t) : string :=
  if truthy (Group.uri group) then default "" (Group.uri group)
  else serialize (URIComponents.mk
                    (Server.scheme (Group.server group))
                    (Server.host (Group.server group))
                    (Server.port (Group.server group))
                    ("/group/" +:+ Group.name group)).

(** [ApUserService.createActor] *)
Definition createActor (user : User.t) : Actor.t :=
  let idAddress := idForUser user in
  Actor.mk idAddress "Person" (User.name user)
           (idAddress +:+ "/" +:+ AP.InboxAddress +:+ "/")
           (idAddress +:+ "/" +:+ AP.OutboxAddress +:+ "/")
           (idAddress +:+ "/" +:+ AP.FollowersAddress +:+ "/")
           (idAddress +:+ "/" +:+ AP.FollowingAddress +:+ "/").

End Identity.

(** The shape [scheme://host[:port]path], used to run the derivation on
    concrete actors. *)
Definition serializePlain (c : URIComponents.t) : string :=
  URIComponents.scheme c +:+ "://" +:+ URIComponents.host c
  +:+ match URIComponents.port c with
      | PortNumber p => ":" +:+ pretty p
      | _ => ""
      end
  +:+ URIComponents.path c.

(** ** The state-and-exception monad of the services *)

(** A computation reads and updates a world [W]; a thrown exception (or a
    rejected promise that is awaited) ends it, and the updates made so far
    stay: nothing is rolled back. *)
Definition M (W A : Type) : Type := W → Result A * W.

#[global] Instance M_ret {W} : MRet (M W) := λ A a w, (Ok a, w).

#[global] Instance M_bind {W} : MBind (M W) := λ A B f m w,
  match m w with
  | (Ok a, w') => f a w'
  | (Err e, w') => (Err e, w')
  end.

Definition throw {W A} (e : Exception) : M W A := λ w, (Err e, w).
Definition gets {W A} (f : W → A) : M W A := λ w, (Ok (f w), w).
Definition modify {W} (f : W → W) : M W unit := λ w, (Ok tt, f w).

(** [o] read where the source dereferences it: [undefined.x] is a
    [TypeError]. *)
Definition deref {W A} (o : option A) : M W A :=
  match o with
  | Some a => mret a
  | None => throw TypeError
  end.

(** ** Repositories *)

(** A TypeORM repository is modelled as a table of entity objects in
    insertion order: a query returns the first object that matches and
    [save] replaces the object with the same primary key, or appends. *)
Section Repository.
Context {A : Type} (key : A → nat).

Fixpoint upsert (x : A) (rows : list A) : list A :=
  match rows with
  | [] => [x]
  | r :: rows' =>
      if bool_decide (key r = key x) then x :: rows' else r :: upsert x rows'
  end.

Definition findById (k : nat) (rows : list A) : option A :=
  List.find (λ r, bool_decide (key r = k)) rows.

End Repository.

(** The key of an inserted row: primary keys are generated, one more than
    the largest key of the table. *)
Definition freshKey {A} (key : A → nat) (rows : list A) : nat :=
  S (foldr Nat.max 0 (key <$> rows)).

(** [try { m } catch (e) { h e }] *)
Definition tryCatch {W A} (m : M W A) (h : Exception → M W A) : M W A := λ w,
  match m w with
  | (Ok a, w') => (Ok a, w')
  | (Err e, w') => h e w'
  end.

(** A many-to-many relation ([@ManyToMany]) is kept in a junction table
    with one row per pair of primary keys, so that saving an array that
    names an object twice, or an object of a key that has a row already,
    adds no second row.  The model keeps the related objects with the
    owning row, one per key: an object of a key that is there takes the
    place of the one stored, an object of a new key is added behind, and
    an array with pairwise different keys is kept as it is. *)
Definition relation {A} (key : A → nat) (l : list A) : list A :=
  foldl (λ rows x, upsert key x rows) [] l.

(** A query with [relations: [r]] fills the property [r] with an array,
    the empty one when the junction table has no row for the object. *)
Definition loadRelation {A} (stored : option (list A)) : option (list A) :=
  Some (default [] stored).

(** ** Object identity *)

(** JavaScript compares objects by identity, not by content, and a query
    of a repository builds new objects on every run.  Within a method an
    object is told by where it came from: it was passed in as an
    argument, or it is the [index]-th object of the array that a query of
    the method has built. *)
Inductive Origin :=
| Passed
| Built (index : nat).

#[global] Instance Origin_eq_dec : EqDecision Origin.
Proof. solve_decision. Defined.

Record Obj (A : Type) := mkObj { origin : Origin; value : A }.
Arguments mkObj {A}.
Arguments origin {A}.
Arguments value {A}.

Definition passed {A} (v : A) : Obj A := mkObj Passed v.
Definition built {A} (l : list A) : list (Obj A) :=
  imap (λ i v, mkObj (Built i) v) l.

(** [Array.prototype.includes] on objects: is one of the elements the very
    object looked for. *)
Definition includes {A} (l : list (Obj A)) (x : Obj A) : bool :=
  bool_decide (Exists (λ o, origin o = origin x) l).

(** What a call of [ActivityService.deliverTo] amounts to for its caller:
    it throws before returning, or returns a promise that settles later. *)
Inductive Settlement :=
| Fulfilled
| Rejected (e : Exception).

Inductive Delivery :=
| Throws (e : Exception)
| Promised (s : Settlement).

(** [await p] *)
Definition await {W} (d : Delivery) : M W unit :=
  match d with
  | Throws e => throw e
  | Promised Fulfilled => mret tt
  | Promised (Rejected e) => throw e
  end.

(** The tables, the configured local server, the state [AS] that
    [ActivityService] owns, and the record of the calls of the delivery
    capability made so far. *)
Record World (AS : Type) := mkWorld {
  local : Server.t;
  groups : list Group.t;
  users : list User.t;
  posts : list Post.t;
  activities : AS;
  delivered : list (Activity.t * list JValue)
}.
Arguments mkWorld {AS}.
Arguments local {AS}.
Arguments groups {AS}.
Arguments users {AS}.
Arguments posts {AS}.
Arguments activities {AS}.
Arguments delivered {AS}.

Definition setGroups {AS} (l : list Group.t) (w : World AS) : World AS :=
  mkWorld (local w) l (users w) (posts w) (activities w) (delivered w).
Definition setUsers {AS} (l : list User.t) (w : World AS) : World AS :=
  mkWorld (local w) (groups w) l (posts w) (activities w) (delivered w).
Definition setPosts {AS} (l : list Post.t) (w : World AS) : World AS :=
  mkWorld (local w) (groups w) (users w) l (activities w) (delivered w).
Definition setActivities {AS} (s : AS) (w : World AS) : World AS :=
  mkWorld (local w) (groups w) (users w) (posts w) s (delivered w).
Definition logDelivery {AS} (a : Activity.t) (targets : list JValue)
    (w : World AS) : World AS :=
  mkWorld (local w) (groups w) (users w) (posts w) (activities w)
          (delivered w ++ [(a, targets)]).

(** The paged collection of ActivityPub. *)
Module Collection.
(** A navigation link: the collection and the page it leads to. *)
Record link := mkLink { collection : string; page : nat }.
Record t := mk {
  id : string;
  type : string;
  totalItems : nat;
  orderedItems : list string;
  next : option link;
  prev : option link
}.
End Collection.

(** ** [ActivityService] *)

(** [ActivityService] is injected into both ActivityPub services; its
    source file is not available.  Its methods are the operations of an
    interface, and the dispatchers are stated over every implementation of
    it.  The methods act on the state [AS] owned by the service; [deliverTo]
    is the outbound delivery capability. *)
Class ActivityService (AS : Type) := {
  findByUri : AS → JValue → option Activity.t;
  create : Payload.t → Activity.t;
  save : AS → Activity.t → Result Activity.t * AS;
  createAcceptActivity : option string → JValue → option string → Payload.t;
  deliverTo : Activity.t → list JValue → Delivery
}.

(** The methods of [ApPostService] and the helper [activityFromObject] that
    the user outbox calls; their source files are not available either.
    [getPostEntityByUri] is a lookup: it reads the world and leaves it as
    it is. *)
Class ApPostService (AS : Type) := {
  PostDto : Type;
  activityFromObject : Payload.t → User.t → Payload.t;
  createNewGlobalPost : Payload.t → PostDto;
  submitNewGlobalPost : PostDto → M (World AS) Post.t;
  deletePostFromActivity : Payload.t → M (World AS) Post.t;
  getPostEntityByUri : JValue → World AS → Result Post.t
}.

(** The calls of [activityService] as steps of the monad. *)
Section ActivityServiceCalls.
Context {AS : Type} {activityService : ActivityService AS}.

Definition findActivityByUri (uri : JValue) : M (World AS) (option Activity.t) :=
  gets (λ w, findByUri (activities w) uri).

Definition saveActivity (a : Activity.t) : M (World AS) Activity.t := λ w,
  let '(r, s) := save (activities w) a in (r, setActivities s w).

(** A call of [activityService.deliverTo]: the call is recorded, and what
    it amounts to is handed to the caller. *)
Definition callDeliverTo (a : Activity.t) (targets : list JValue)
    : M (World AS) Delivery := λ w,
  (Ok (deliverTo a targets), logDelivery a targets w).

End ActivityServiceCalls.

(** [Keeps inv m]: a run of [m] from a world whose activity store
    satisfies [inv] ends, with a result or with an error, in a world whose
    activity store satisfies it. *)
Definition Keeps {AS A} (inv : AS → Prop) (m : M (World AS) A) : Prop :=
  ∀ w, inv (activities w) → inv (activities (snd (m w))).

(** What a dispatcher hands back to the controller (typed [any]). *)
Inductive Response :=
| RUndefined
| RBool (b : bool)
| RPayload (p : Payload.t)
| RActivity (a : Activity.t).

(** ** [PostService] *)

Module PostService.
Section PostService.
Context {AS : Type}.

(** [isLocalPost] *)
Definition isLocalPost (post : Post.t) : M (World AS) bool :=
  lcl ← gets local;
  mret (bool_decide (Server.host lcl = Server.host (Post.server post))
        && bool_decide (Server.scheme lcl = Server.scheme (Post.server post))
        && (bool_decide (Server.port lcl = Server.port (Post.server post))
            || bool_decide (Server.port (Post.server post) = PortUndefined))).

(** [postRepository.save] *)
Definition save (post : Post.t) : M (World AS) Post.t :=
  _ ← modify (λ w, setPosts (upsert Post.id post (posts w)) w);
  mret post.

(** [softDelete] *)
Definition softDelete (post : Post.t) : M (World AS) Post.t :=
  isLocal ← isLocalPost post;
  if isLocal : bool then save (Post.setDeleted true post)
  else throw (BadRequestException (Some "Can't delete a non-local post")).

(** [postRepository.findOne({ uuid })], the query behind [findByUuid],
    [delete] and [createReply]. *)
Definition findOneByUuid (uuid : string) (rows : list Post.t) : option Post.t :=
  List.find (λ p, bool_decide (Post.uuid p = uuid)) rows.

(** [findByUri]: [findOneOrFail] rejects when no row matches. *)
Definition findByUri (uri : string) : M (World AS) Post.t := λ w,
  match List.find (λ p, bool_decide (Post.uri p = Some uri)) (posts w) with
  | Some p => (Ok p, w)
  | None => (Err (Error "EntityNotFound"), w)
  end.

(** [update] *)
Definition update (post : Post.t) : M (World AS) Post.t := save post.

(** [configService.serverAddress], [serverPort] and [isHttps], and
    [URI.serialize] of uri-js. *)
Variable serverAddress : string.
Variable serverPort : Port.
Variable isHttps : bool.
Variable serialize : URIComponents.t → string.

(** [uriFromUuid] *)
Definition uriFromUuid (uuid : string) : string :=
  let host := serverAddress in
  let port := serverPort in
  let scheme := if isHttps then "https" else "http" in
  serialize (URIComponents.mk scheme host port ("/post/" +:+ uuid)).

(** [uriFromLocalPost] *)
Definition uriFromLocalPost (post : Post.t) : M (World AS) string :=
  if truthy (Post.uri post) then mret (default "" (Post.uri post))
  else
    isLocal ← isLocalPost post;
    if isLocal : bool then mret (uriFromUuid (Post.uuid post))
    else throw (Error ("No URI found for post " +:+ Post.uuid post)).

End PostService.
End PostService.

(** ** [UserService] *)

Module UserService.
Section UserService.
Context {AS : Type}.

(** [findLocalByName] *)
Definition findLocalByName (name : string) : M (World AS) User.t := λ w,
  match List.find (λ u, bool_decide (User.name u = name)
                        && bool_decide (User.server u = local w)) (users w) with
  | Some u => (Ok u, w)
  | None => (Err (Error ("User " +:+ name +:+ " does not exist on this server")), w)
  end.

(** Modelled from the spec: [UserService.findByUri], which the group inbox
    calls, is missing from the sources.  The Follow row of the dispatch
    table requires the actor to be resolvable from [data.actor]; the model
    looks the URI up in the user table, as [GroupService.findByUri] does
    for groups, and rejects when no user has it. *)
Definition findByUri (uri : JValue) : M (World AS) User.t := λ w,
  match uri with
  | JStr s =>
      match List.find (λ u, bool_decide (User.uri u = Some s)) (users w) with
      | Some u => (Ok u, w)
      | None => (Err (Error "EntityNotFound"), w)
      end
  | _ => (Err (Error "EntityNotFound"), w)
  end.

(** [getLikes]: [findOne] answers [undefined] when the row is absent, and
    else the user with the [liked] relation loaded. *)
Definition getLikes (user : User.t) : M (World AS) (option User.t) :=
  gets (λ w, (λ u, User.setLiked (loadRelation (User.liked u)) u)
             <$> findById User.id (User.id user) (users w)).

(** The row that a saved user leaves in the table: its [liked] array goes
    to the junction table of the relation. *)
Definition row (user : User.t) : User.t :=
  User.setLiked (relation Post.id <$> User.liked user) user.

(** [userRepository.save]: the row is written, and the object that was
    passed in is the answer. *)
Definition save (user : User.t) : M (World AS) User.t :=
  _ ← modify (λ w, setUsers (upsert User.id (row user) (users w)) w);
  mret user.

(** [addLike] *)
Definition addLike (user : User.t) (post : Post.t) : M (World AS) User.t :=
  found ← getLikes user;
  result ← deref found;
  liked ← deref (User.liked result);
  save (User.setLiked (Some (liked ++ [post])) result).

(** [findByName]: the name alone decides, on whatever server. *)
Definition findByName (name : string) : M (World AS) (option User.t) :=
  gets (λ w, List.find (λ u, bool_decide (User.name u = name)) (users w)).

(** [getIdForActor] of [definitions/actor.interface], at type
    [ActorType.User]; it is handed the unsaved entity, which consists of a
    name and a server. *)
Variable getIdForActor : string → Server.t → string.

(** [createEmptyUserEntry] *)
Definition createEmptyUserEntry (username : string) : M (World AS) User.t :=
  existing ← findByName username;
  match existing with
  | Some _ => throw (Error ("Username " +:+ username +:+ " already in database"))
  | None =>
      lcl ← gets local;
      key ← gets (λ w, freshKey User.id (users w));
      save (User.mk key (Some (getIdForActor username lcl)) username lcl None)
  end.

End UserService.
End UserService.

(** ** [GroupService] *)

Module GroupService.
Section GroupService.
Context {AS : Type}.

(** [findLocalByName] *)
Definition findLocalByName (name : string) : M (World AS) Group.t := λ w,
  match List.find (λ g, bool_decide (Group.name g = name)
                        && bool_decide (Group.server g = local w)) (groups w) with
  | Some g => (Ok g, w)
  | None => (Err (Error ("Group " +:+ name +:+ " does not exist on this server")), w)
  end.

(** [getFollowers]: [findOne] answers [undefined] when the row is absent,
    and else the group with the [followingUsers] relation loaded. *)
Definition getFollowers (group : Group.t) : M (World AS) (option Group.t) :=
  gets (λ w, (λ g, Group.setFollowingUsers
                     (loadRelation (Group.followingUsers g)) g)
             <$> findById Group.id (Group.id group) (groups w)).

(** The row that a saved group leaves in the table: its [followingUsers]
    array goes to the junction table of the relation. *)
Definition row (group : Group.t) : Group.t :=
  Group.setFollowingUsers (relation User.id <$> Group.followingUsers group)
                          group.

(** [groupRepository.save]: the row is written, and the object that was
    passed in is the answer. *)
Definition save (group : Group.t) : M (World AS) Group.t :=
  _ ← modify (λ w, setGroups (upsert Group.id (row group) (groups w)) w);
  mret group.

(** [addFollower]: [user] is an argument, the followers are the objects
    that the query of this call has built. *)
Definition addFollower (group : Group.t) (user : User.t) : M (World AS) bool :=
  found ← getFollowers group;
  fullGroup ← deref found;
  match Group.followingUsers fullGroup with
  | None =>
      _ ← save (Group.setFollowingUsers (Some [user]) fullGroup);
      mret true
  | Some followers =>
      if includes (built followers) (passed user) then mret false
      else
        _ ← save (Group.setFollowingUsers (Some (followers ++ [user])) fullGroup);
        mret true
  end.

End GroupService.
End GroupService.

(** The [case] labels of the two outbox dispatchers. *)
Definition userCases : list string :=
  ["Create"; "Delete"; "Update"; "Follow"; "Add"; "Remove"; "Like"; "Block";
   "Undo"].
Definition groupCases : list string :=
  ["Accept"; "Create"; "Update"; "Delete"; "Follow"; "Add"; "Remove"; "Like";
   "Block"; "Undo"; "Reject"].

(** ** [ApGroupService] *)

Module ApGroupService.
Section ApGroupService.
Context {AS : Type} {activityService : ActivityService AS}.

(** The [Accept] entity built by [acceptPostRequest]. *)
Definition acceptEntity (group : Group.t) (toAccept : option User.t)
    (activity : Payload.t) : Activity.t :=
  Activity.mk None (Payload.type activity) None (Some group) None None None
              (Some [toAccept]) activity.

(** [acceptPostRequest]: a POST to a group's outbox. *)
Definition acceptPostRequest (groupname : string) (data : Payload.t)
    : M (World AS) Response :=
  group ← GroupService.findLocalByName groupname;
  let activity := data in
  if bool_decide (Payload.type activity = "Accept") then
    found ← findActivityByUri (Payload.object activity);
    request ← deref found;
    let toAccept := Activity.sourceUser request in
    act ← saveActivity (acceptEntity group toAccept activity);
    d ← callDeliverTo act [Payload.target activity];
    _ ← await d;
    mret (RPayload (Activity.activityObject act))
  else if bool_decide (Payload.type activity ∈
            ["Create"; "Update"; "Delete"; "Follow"; "Add"; "Remove";
             "Like"; "Block"; "Undo"; "Reject"]) then
    throw ImATeapotException
  else
    throw (BadRequestException
             (Some ("Invalid activity type " +:+ Payload.type activity))).

(** The filter-and-map of [deliverToFollowers]; the callback reads
    [activity.sourceUser.uri], so a missing source user is a [TypeError]
    as soon as there is a follower to test. *)
Definition urisWithoutSender (activity : Activity.t) (followers : list User.t)
    : M (World AS) (list (option string)) :=
  match followers with
  | [] => mret []
  | _ :: _ =>
      sender ← deref (Activity.sourceUser activity);
      mret (User.uri <$> filter (λ f, User.uri f ≠ User.uri sender) followers)
  end.

(** [deliverToFollowers]: the promise of [deliverTo] is not awaited, so the
    [catch] only sees what [deliverTo] throws before it returns. *)
Definition deliverToFollowers (activity : Activity.t) (group : Group.t)
    : M (World AS) Activity.t :=
  found ← GroupService.getFollowers group;
  withFollowers ← deref found;
  followers ← deref (Group.followingUsers withFollowers);
  uris ← urisWithoutSender activity followers;
  d ← callDeliverTo activity (toJValue <$> uris);
  match d with
  | Throws e => throw (InternalServerErrorException e)
  | Promised _ => mret activity
  end.

(** [destinationGroups.push(group)], or a fresh array when there is none. *)
Definition pushDestination (group : Group.t) (a : Activity.t) : Activity.t :=
  match Activity.destinationGroups a with
  | Some l => Activity.setDestinationGroups (Some (l ++ [group])) a
  | None => Activity.setDestinationGroups (Some [group]) a
  end.

(** The [audience] stamp of the [Create] branch. *)
Definition stampAudience (group : Group.t) (activity : Payload.t)
    : M (World AS) Payload.t :=
  let followers := ActorEntity.followers (Group.actor group) in
  match Payload.audience activity with
  | AudFalsy => mret (Payload.setAudience (AudArray [followers]) activity)
  | AudArray l => mret (Payload.setAudience (AudArray (l ++ [followers])) activity)
  | AudOther _ => throw (BadRequestException None)
  end.

(** The entity that the [Create] branch hands to [save] for an activity
    that is already in the database. *)
Definition relayedEntity (group : Group.t) (activityEntity : Activity.t)
    (stamped : Payload.t) : Activity.t :=
  Activity.setActivityObject stamped (pushDestination group activityEntity).

(** [handleIncoming]: a POST to a group's inbox. *)
Definition handleIncoming (groupname : string) (data : Payload.t)
    : M (World AS) Response :=
  group ← GroupService.findLocalByName groupname;
  let activity := data in
  found ← findActivityByUri (Payload.id activity);
  let activityEntity :=
    pushDestination group (default (create activity) found) in
  if bool_decide (Payload.type activity = "Create") then
    if truthy (Activity.uri activityEntity) then
      stamped ← stampAudience group activity;
      saved ← saveActivity (relayedEntity group activityEntity stamped);
      sent ← deliverToFollowers saved group;
      mret (RActivity sent)
    else mret RUndefined
  else if bool_decide (Payload.type activity = "Follow") then
    user ← UserService.findByUri (Payload.actor data);
    saved ← saveActivity activityEntity;
    result ← GroupService.addFollower group user;
    if result : bool then
      let accept :=
        createAcceptActivity (Group.uri group) (Payload.id activity)
                             (User.uri user) in
      acceptPostRequest (Group.name group) accept
    else mret (RBool result)
  else throw NotImplementedException.

(** [followingForGroup] *)
Definition followingForGroup (name : string) : M (World AS) (list JValue) :=
  mret [].

(** [getLocalGroup]: the [catch] hands the rejection on. *)
Definition getLocalGroup (name : string) : M (World AS) Group.t :=
  tryCatch (GroupService.findLocalByName name) throw.

End ApGroupService.
End ApGroupService.

(** The payload a relayed [Create] is saved with: the audience it came
    with, followed by the followers collection of the group. *)
Definition stamped (group : Group.t) (data : Payload.t) : Payload.t :=
  Payload.setAudience
    (AudArray (match Payload.audience data with
               | AudArray l => l
               | _ => []
               end ++ [ActorEntity.followers (Group.actor group)])) data.

Section InboxEntities.
Context {AS : Type} {activityService : ActivityService AS}.

(** The entity of the incoming activity, as the Follow branch saves it. *)
Definition followEntity (group : Group.t) (data : Payload.t) (st : AS)
    : Activity.t :=
  ApGroupService.pushDestination group
    (default (create data) (findByUri st (Payload.id data))).

End InboxEntities.

(** The targets of a fan-out as a function of the sender and the
    followers: the [uri] of every follower whose [uri] is not the
    sender's, in the order of the followers. *)
Definition fanOutTargets (sender : User.t) (followers : list User.t) : list JValue :=
  toJValue <$> (User.uri <$> filter (λ f, User.uri f ≠ User.uri sender) followers).

(** ** [ApUserService] *)

Module ApUserService.
Section ApUserService.
Context {AS : Type} {activityService : ActivityService AS}
  {apPostService : ApPostService AS}.

(** [likePost] *)
Definition likePost (user : User.t) (post : Post.t) : M (World AS) User.t :=
  UserService.addLike user post.

(** The entity literal of the [Create], [Delete] and [Like] branches. *)
Definition outboxEntity (targetUser : User.t) (targetPost : Post.t)
    (activity : Payload.t) : Activity.t :=
  Activity.mk None (Payload.type activity) None None (Some targetUser)
              (Some targetPost) None None activity.

(** [acceptPostRequest]: a POST to a user's outbox. *)
Definition acceptPostRequest (username : string) (data : Payload.t)
    : M (World AS) Response :=
  user ← UserService.findLocalByName username;
  let activity :=
    if bool_decide (Payload.content data = JNull) then data
    else activityFromObject data user in
  if bool_decide (Payload.type activity = "Create") then
    let postObject := createNewGlobalPost activity in
    postEntity ← submitNewGlobalPost postObject;
    saved ← saveActivity (outboxEntity user postEntity activity);
    mret (RPayload (Activity.activityObject saved))
  else if bool_decide (Payload.type activity = "Delete") then
    deletedPost ← deletePostFromActivity activity;
    saved ← saveActivity (outboxEntity user deletedPost activity);
    mret (RPayload (Activity.activityObject saved))
  else if bool_decide (Payload.type activity ∈
            ["Update"; "Follow"; "Add"; "Remove"]) then
    throw NotImplementedException
  else if bool_decide (Payload.type activity = "Like") then
    likedPost ← (λ w, (getPostEntityByUri (Payload.object activity) w, w));
    targetUser ← likePost user likedPost;
    saved ← saveActivity (outboxEntity targetUser likedPost activity);
    mret (RPayload (Activity.activityObject saved))
  else if bool_decide (Payload.type activity ∈ ["Block"; "Undo"]) then
    throw NotImplementedException
  else
    throw (BadRequestException
             (Some ("Invalid activity type " +:+ Payload.type activity))).

(** [getLocalUser]: the [catch] builds a rejected promise and drops it, so
    the method falls off its end and resolves with [undefined]. *)
Definition getLocalUser (name : string) : M (World AS) (option User.t) :=
  tryCatch (user ← UserService.findLocalByName name; mret (Some user))
           (λ _, mret None).

Variable serialize : URIComponents.t → string.

(** [getActorForUser]: [createActor] reads [user.uri] first, a [TypeError]
    on [undefined]; the [catch] hands the rejection on. *)
Definition getActorForUser (name : string) : M (World AS) Actor.t :=
  tryCatch (found ← getLocalUser name;
            user ← deref found;
            mret (createActor serialize user))
           throw.

(** [activityService.createCollection], applied to a list of URIs. *)
Variable createCollection : list (option string) → Collection.t.

(** [getLikes] *)
Definition getLikes (name : string) : M (World AS) Collection.t :=
  tryCatch (user ← UserService.findLocalByName name;
            found ← UserService.getLikes user;
            withLikes ← deref found;
            liked ← deref (User.liked withLikes);
            let uris := Post.uri <$> liked in
            mret (createCollection uris))
           (λ _, throw (NotFoundException
                          ("User " +:+ name +:+ " does not exist on this server"))).

End ApUserService.
End ApUserService.

(** ** Collection paginator *)

(** Modelled from the spec: [ActivityService.createPagedCollection] is
    missing from the sources.  Given an ordered sequence of identifiers and
    a page size it exposes the total item count, the items on the requested
    page (1-indexed) and links to the next and previous pages when there
    are such pages; an out-of-range page has an empty item list. *)
Definition createPagedCollection (items : list string) (pageSize : nat)
    (collectionUri : string) (page : nat) : Collection.t :=
  Collection.mk
    collectionUri
    "OrderedCollectionPage"
    (length items)
    (if bool_decide (page = 0) then []
     else take pageSize (drop ((page - 1) * pageSize) items))
    (if bool_decide ((1 ≤ page)%nat ∧ (page * pageSize < length items)%nat)
     then Some (Collection.mkLink collectionUri (page + 1)) else None)
    (if bool_decide ((1 < page)%nat)
     then Some (Collection.mkLink collectionUri (page - 1)) else None).

(** ** An activity store to run the dispatchers on *)

Module TableStore.

(** Modelled from the spec: the methods of [ActivityService] over a table
    of activities.  [findByUri] is the dedup lookup by URI; [create] builds
    an unsaved shell from a raw payload; [save] upserts: a saved activity
    carries a [uri] (its own, else the external [id] of its payload), and
    when the table already holds that URI the record is updated in place
    with the destination groups merged, not overwritten; the destination
    groups of a record are a set, kept as a relation with one row per
    group;
    [createAcceptActivity] builds an [Accept] that references the Follow
    and is targeted at the follower; [deliverTo] attempts every target and
    settles once all attempts have: fulfilled if all were, else rejected. *)
Definition findByUri (rows : list Activity.t) (uri : JValue) : option Activity.t :=
  match uri with
  | JStr s => List.find (λ a, bool_decide (Activity.uri a = Some s)) rows
  | _ => None
  end.

Definition create (payload : Payload.t) : Activity.t :=
  Activity.mk None (Payload.type payload) None None None None None None payload.

Definition identify (a : Activity.t) : option string :=
  match Activity.uri a with
  | Some u => Some u
  | None =>
      match Payload.id (Activity.activityObject a) with
      | JStr s => Some s
      | _ => None
      end
  end.

Definition mergeDestinations (old new : option (list Group.t))
    : option (list Group.t) :=
  match old, new with
  | None, None => None
  | _, _ => Some (relation Group.id (default [] old ++ default [] new))
  end.

Fixpoint upsertByUri (a : Activity.t) (rows : list Activity.t) : list Activity.t :=
  match rows with
  | [] => [a]
  | r :: rows' =>
      if bool_decide (is_Some (Activity.uri a) ∧ Activity.uri r = Activity.uri a)
      then a :: rows' else r :: upsertByUri a rows'
  end.

Definition save (rows : list Activity.t) (a : Activity.t)
    : Result Activity.t * list Activity.t :=
  let a' := Activity.setUri (identify a) a in
  let stored := findByUri rows (toJValue (Activity.uri a')) in
  let merged :=
    Activity.setDestinationGroups
      (mergeDestinations (stored ≫= Activity.destinationGroups)
                         (Activity.destinationGroups a')) a' in
  (Ok merged, upsertByUri merged rows).

(** The record that [save] writes. *)
Definition written (rows : list Activity.t) (a : Activity.t) : Activity.t :=
  match save rows a with
  | (Ok merged, _) => merged
  | (Err _, _) => a
  end.

(** The records of the table for a URI, and how often a record lists a
    group among its destinations. *)
Definition recordsFor (uri : string) (rows : list Activity.t)
    : list Activity.t :=
  filter (λ a, Activity.uri a = Some uri) rows.

Definition destinationCount (group : Group.t) (a : Activity.t) : nat :=
  length (filter (λ g, Group.id g = Group.id group)
                 (default [] (Activity.destinationGroups a))).

(** The table is well formed at a URI: it has at most one record for it,
    and such a record lists no group twice. *)
Definition wellFormed (uri : string) (rows : list Activity.t) : Prop :=
  (length (recordsFor uri rows) ≤ 1)%nat
  ∧ ∀ a, a ∈ recordsFor uri rows →
         NoDup (Group.id <$> default [] (Activity.destinationGroups a)).

(** A record of the table for the URI lists the group. *)
Definition listed (uri : string) (group : Group.t) (rows : list Activity.t)
    : Prop :=
  ∃ a, a ∈ recordsFor uri rows
       ∧ Group.id group ∈ Group.id <$> default [] (Activity.destinationGroups a).

Definition createAcceptActivity (actor : option string) (object : JValue)
    (target : option string) : Payload.t :=
  Payload.mk JNull "Accept" (toJValue actor) object (toJValue target)
             AudFalsy JNull.

Section Delivery.
(** The delivery capability: the outcome of one attempt. *)
Variable deliver : Activity.t → JValue → Settlement.

Fixpoint settleAll (a : Activity.t) (targets : list JValue) : Settlement :=
  match targets with
  | [] => Fulfilled
  | t :: ts =>
      match deliver a t, settleAll a ts with
      | Rejected e, _ => Rejected e
      | Fulfilled, s => s
      end
  end.

Definition deliverTo (a : Activity.t) (targets : list JValue) : Delivery :=
  Promised (settleAll a targets).

Definition service : ActivityService (list Activity.t) :=
  Build_ActivityService _ findByUri create save createAcceptActivity deliverTo.

(** The post service of the same kind: [getPostEntityByUri] resolves a
    known post URI through [PostService.findByUri]; posts are not created
    or deleted. *)
Definition postService : ApPostService (list Activity.t) :=
  Build_ApPostService _ unit
    (λ data _, Payload.mk (Payload.id data) "Create" (Payload.actor data)
                 (JOther "object") (Payload.target data)
                 (Payload.audience data) JNull)
    (λ _, tt)
    (λ _, throw (Error "no post service"))
    (λ _, throw (Error "no post service"))
    (λ object w,
       match object with
       | JStr s => fst (PostService.findByUri s w)
       | _ => Err (Error "EntityNotFound")
       end).

End Delivery.
End TableStore.

(** ** A small instance: one local server, three users, one group *)

Module Sample.

Definition here : Server.t :=
  Server.mk "https" "themis.example" (PortNumber 8443).
Definition away : Server.t := Server.mk "https" "remote.example" PortNull.

Definition mkUser (n : nat) (name : string) : User.t :=
  User.mk n (Some ("https://themis.example:8443/user/" +:+ name)) name here
          (Some []).

Definition U1 : User.t := mkUser 1 "u1".
Definition U2 : User.t := mkUser 2 "u2".
Definition U3 : User.t := mkUser 3 "u3".

Definition groupUri : string := "https://themis.example:8443/group/rocq".

Definition groupActor : ActorEntity.t :=
  ActorEntity.mk groupUri (groupUri +:+ "/inbox/") (groupUri +:+ "/outbox/")
                 (groupUri +:+ "/followers/") (groupUri +:+ "/following/").

Definition G (followers : option (list User.t)) : Group.t :=
  Group.mk 1 "rocq" (Some groupUri) here followers groupActor.

Definition localPost : Post.t :=
  Post.mk 1 "6f1c" (Some "https://themis.example:8443/post/6f1c") here
          "Subject" "Body text" false.

Definition remotePost : Post.t :=
  Post.mk 2 "9a2e" (Some "https://remote.example/post/9a2e") away
          "2nd Subject" "Different text" false.

(** Posts of other server records of the local host: one without a port,
    one whose port is [null]. *)
Definition portlessPost : Post.t :=
  Post.mk 3 "c4d0" None (Server.mk "https" "themis.example" PortUndefined)
          "3rd Subject" "More text" false.
Definition nullPortPost : Post.t :=
  Post.mk 4 "e7b1" None (Server.mk "https" "themis.example" PortNull)
          "4th Subject" "Other text" false.

Definition noteUri : string := "https://themis.example:8443/activity/1".

(** A [Create] issued by [U2] that the server already knows. *)
Definition createPayload : Payload.t :=
  Payload.mk (JStr noteUri) "Create" (JStr "https://themis.example:8443/user/u2")
             (JOther "note") JNull AudFalsy JNull.

Definition knownCreate : Activity.t :=
  Activity.mk (Some noteUri) "Create" (Some U2) None None None None None
              createPayload.

Definition followPayload (actor : User.t) : Payload.t :=
  Payload.mk (JStr "https://themis.example:8443/activity/2") "Follow"
             (toJValue (User.uri actor)) (JStr groupUri) JNull AudFalsy JNull.

Definition typed (t : string) : Payload.t :=
  Payload.mk (JStr "https://themis.example:8443/activity/3") t JNull JNull
             JNull AudFalsy JNull.

Definition likePayload : Payload.t :=
  Payload.mk JNull "Like" (JStr "https://themis.example:8443/user/u1")
             (toJValue (Post.uri localPost)) JNull AudFalsy JNull.

Definition world (followers : option (list User.t)) : World (list Activity.t) :=
  mkWorld here [G followers] [U1; U2; U3] [localPost; remotePost]
          [knownCreate] [].

(** Every delivery succeeds, or the one to [bad] fails. *)
Definition allDelivered : Activity.t → JValue → Settlement := λ _ _, Fulfilled.
Definition failsAt (bad : JValue) : Activity.t → JValue → Settlement :=
  λ _ t, if bool_decide (t = bad) then Rejected (Error "ECONNREFUSED") else Fulfilled.

Definition svc : ActivityService (list Activity.t) :=
  TableStore.service allDelivered.
Definition svcU1down : ActivityService (list Activity.t) :=
  TableStore.service (failsAt (toJValue (User.uri U1))).
Definition psvc : ApPostService (list Activity.t) := TableStore.postService.

(** The group with all three users as followers. *)
Definition followed : World (list Activity.t) := world (Some [U1; U2; U3]).

(** [U1] is not yet a follower, and the world once its Follow has been
    handled. *)
Definition beforeFollow : World (list Activity.t) := world (Some [U2; U3]).
Definition afterFollow : World (list Activity.t) :=
  snd (ApGroupService.handleIncoming (activityService := svc)
         "rocq" (followPayload U1) beforeFollow).

(** The inbox address of a user, as its Actor object gives it. *)
Definition inboxOf (u : User.t) : JValue :=
  JStr (Actor.inbox (createActor serializePlain u)).

(** A store that cannot be written to. *)
Definition svcReadOnly : ActivityService (list Activity.t) :=
  Build_ActivityService _ TableStore.findByUri TableStore.create
    (λ rows _, (Err (Error "SQLITE_READONLY"), rows))
    TableStore.createAcceptActivity
    (TableStore.deliverTo allDelivered).

(** A group that is not stored, the group without followers, and an
    activity without source user. *)
Definition ghostGroup : Group.t :=
  Group.mk 9 "ghost" None here None groupActor.
Definition lonely : World (list Activity.t) := world (Some []).
Definition orphanCreate : Activity.t :=
  Activity.mk (Some noteUri) "Create" None None None None None None
              createPayload.

(** An [Accept] of the group for the activity with the given URI, to be
    delivered to [U1]. *)
Definition acceptPayload (object : string) : Payload.t :=
  Payload.mk JNull "Accept" (JStr groupUri) (JStr object)
             (toJValue (User.uri U1)) AudFalsy JNull.

(** The known [Create] with another audience. *)
Definition createPayloadTo (audience : Audience) : Payload.t :=
  Payload.setAudience audience createPayload.

(** A [Like] of a post nobody knows. *)
Definition likeOfNothing : Payload.t :=
  Payload.mk JNull "Like" (JStr "https://themis.example:8443/user/u1")
             (JStr "https://remote.example/post/0000") JNull AudFalsy JNull.

(** A plain collection of URIs. *)
Definition collect (uris : list (option string)) : Collection.t :=
  Collection.mk "likes" "OrderedCollection" (length uris)
                (default "" <$> uris) None None.

(** The identifier of a new local user. *)
Definition localId (name : string) (server : Server.t) : string :=
  serializePlain (URIComponents.mk (Server.scheme server) (Server.host server)
                    (Server.port server) ("/user/" +:+ name)).

End Sample.

(** * Properties *)

(** ** Repository lemmas *)

Section RepositoryFacts.
Context {A : Type} (key : A → nat).

Lemma findById_upsert (x : A) (rows : list A) :
  findById key (key x) (upsert key x rows) = Some x.
Proof.
  unfold findById. induction rows as [|r rows IH]; simpl.
  - by rewrite bool_decide_eq_true_2.
  - destruct (decide (key r = key x)) as [E|E].
    + rewrite (bool_decide_eq_true_2 _ E). simpl.
      by rewrite bool_decide_eq_true_2.
    + rewrite (bool_decide_eq_false_2 _ E). simpl.
      by rewrite (bool_decide_eq_false_2 _ E).
Qed.

(** A row found by a query is the row its primary key leads to, when keys
    are unique. *)
Lemma find_findById (P : A → bool) (rows : list A) (r : A) :
  NoDup (key <$> rows) →
  List.find P rows = Some r →
  findById key (key r) rows = Some r.
Proof.
  unfold findById. induction rows as [|a rows IH]; simpl; [done|].
  intros Hnd Hfind. apply NoDup_cons in Hnd as [Hnotin Hnd].
  destruct (P a) eqn:HP.
  - injection Hfind as ->. by rewrite bool_decide_eq_true_2.
  - destruct (decide (key a = key r)) as [E|E].
    + exfalso. apply Hnotin. rewrite E.
      apply list_elem_of_fmap. exists r. split; [done|].
      apply list_elem_of_In. by apply (List.find_some _ _ Hfind).
    + rewrite (bool_decide_eq_false_2 _ E). by apply IH.
Qed.

(** Saving a new version of the row a query finds keeps it the answer of
    that query. *)
Lemma find_upsert (P : A → bool) (rows : list A) (r x : A) :
  NoDup (key <$> rows) →
  List.find P rows = Some r →
  key x = key r →
  P x = true →
  List.find P (upsert key x rows) = Some x.
Proof.
  induction rows as [|a rows IH]; simpl; [done|].
  intros Hnd Hfind Hkey HPx. apply NoDup_cons in Hnd as [Hnotin Hnd].
  destruct (P a) eqn:HP.
  - injection Hfind as ->. rewrite bool_decide_eq_true_2; [|done].
    simpl. by rewrite HPx.
  - destruct (decide (key a = key x)) as [E|E].
    + exfalso. apply Hnotin. rewrite E, Hkey.
      apply list_elem_of_fmap. exists r. split; [done|].
      apply list_elem_of_In. by apply (List.find_some _ _ Hfind).
    + rewrite (bool_decide_eq_false_2 _ E). simpl. rewrite HP. by apply IH.
Qed.


Lemma findById_key (k : nat) (rows : list A) (r : A) :
  findById key k rows = Some r → key r = k.
Proof.
  unfold findById. intros Hfind.
  apply List.find_some in Hfind as [_ Hk]. by apply bool_decide_eq_true in Hk.
Qed.

Lemma findById_elem (k : nat) (rows : list A) (r : A) :
  findById key k rows = Some r → r ∈ rows.
Proof.
  unfold findById. intros Hfind.
  apply List.find_some in Hfind as [Hin _]. by apply list_elem_of_In.
Qed.

(** Saving a row leaves the rows of other keys where they are. *)
Lemma findById_upsert_ne (k : nat) (x : A) (rows : list A) :
  k ≠ key x → findById key k (upsert key x rows) = findById key k rows.
Proof.
  intros Hne. unfold findById.
  induction rows as [|r rows IH]; simpl.
  - rewrite bool_decide_eq_false_2; [done | congruence].
  - destruct (decide (key r = key x)) as [E|E].
    + rewrite (bool_decide_eq_true_2 _ E). simpl.
      rewrite !bool_decide_eq_false_2; [done | congruence | congruence].
    + rewrite (bool_decide_eq_false_2 _ E). simpl. by rewrite IH.
Qed.

(** Saving an object a second time changes nothing. *)
Lemma upsert_idem (x : A) (rows : list A) :
  upsert key x (upsert key x rows) = upsert key x rows.
Proof.
  induction rows as [|r rows IH]; simpl.
  - by rewrite bool_decide_eq_true_2.
  - destruct (decide (key r = key x)) as [E|E].
    + rewrite (bool_decide_eq_true_2 _ E). simpl.
      by rewrite bool_decide_eq_true_2.
    + rewrite (bool_decide_eq_false_2 _ E). simpl.
      rewrite (bool_decide_eq_false_2 _ E). by rewrite IH.
Qed.

(** Saving a new version of a stored row keeps the number of rows. *)
Lemma length_upsert_stored (x : A) (rows : list A) :
  is_Some (findById key (key x) rows) →
  length (upsert key x rows) = length rows.
Proof.
  unfold findById. induction rows as [|r rows IH]; simpl.
  - by intros [? ?].
  - destruct (decide (key r = key x)) as [E|E].
    + by rewrite (bool_decide_eq_true_2 _ E).
    + rewrite (bool_decide_eq_false_2 _ E). simpl. intros H. by rewrite IH.
Qed.

Lemma freshKey_above (rows : list A) (r : A) :
  r ∈ rows → key r < freshKey key rows.
Proof.
  unfold freshKey. induction rows as [|a rows IH]; simpl.
  - by intros H%elem_of_nil.
  - intros [->|H]%elem_of_cons; apply Nat.lt_succ_r.
    + apply Nat.le_max_l.
    + etrans; [apply Nat.lt_succ_r, IH, H | apply Nat.le_max_r].
Qed.

(** A row with a key that no row has is appended. *)
Lemma upsert_fresh (x : A) (rows : list A) :
  (∀ r, r ∈ rows → key r ≠ key x) → upsert key x rows = rows ++ [x].
Proof.
  induction rows as [|r rows IH]; intros Hfresh; simpl; [done|].
  rewrite bool_decide_eq_false_2.
  - rewrite IH; [done|]. intros q Hq. apply Hfresh. by apply list_elem_of_further.
  - apply Hfresh. apply list_elem_of_here.
Qed.

(** A stored row that is saved again as it is leaves the table as it
    is. *)
Lemma upsert_found (x : A) (rows : list A) :
  findById key (key x) rows = Some x → upsert key x rows = rows.
Proof.
  unfold findById. induction rows as [|r rows IH]; simpl; [done|].
  destruct (decide (key r = key x)) as [E|E].
  - rewrite (bool_decide_eq_true_2 _ E). by intros [= ->].
  - rewrite (bool_decide_eq_false_2 _ E). intros H. by rewrite IH.
Qed.

Lemma elem_findById (x : A) (rows : list A) :
  NoDup (key <$> rows) → x ∈ rows → findById key (key x) rows = Some x.
Proof.
  unfold findById. induction rows as [|r rows IH]; simpl.
  - intros _ H. by apply elem_of_nil in H.
  - intros Hnd Hin. apply NoDup_cons in Hnd as [Hnotin Hnd].
    apply elem_of_cons in Hin as [->|Hin].
    + by rewrite bool_decide_eq_true_2.
    + rewrite bool_decide_eq_false_2; [by apply IH|].
      intros E. apply Hnotin. rewrite E. apply list_elem_of_fmap. by exists x.
Qed.

Lemma keys_upsert (x : A) (rows : list A) (k : nat) :
  k ∈ key <$> upsert key x rows ↔ k = key x ∨ k ∈ key <$> rows.
Proof.
  induction rows as [|r rows IH]; simpl.
  - rewrite elem_of_cons. tauto.
  - destruct (decide (key r = key x)) as [E|E].
    + rewrite (bool_decide_eq_true_2 _ E). simpl.
      rewrite !elem_of_cons, E. tauto.
    + rewrite (bool_decide_eq_false_2 _ E). simpl.
      rewrite !elem_of_cons, IH. tauto.
Qed.

Lemma keys_upsert_stored (x : A) (rows : list A) :
  key x ∈ key <$> rows → key <$> upsert key x rows = key <$> rows.
Proof.
  induction rows as [|r rows IH]; simpl.
  - intros H. by apply elem_of_nil in H.
  - destruct (decide (key r = key x)) as [E|E].
    + rewrite (bool_decide_eq_true_2 _ E). simpl. by rewrite E.
    + rewrite (bool_decide_eq_false_2 _ E). simpl.
      intros H. apply elem_of_cons in H as [H|H]; [congruence|].
      f_equal. by apply IH.
Qed.

Lemma NoDup_keys_upsert (x : A) (rows : list A) :
  NoDup (key <$> rows) → NoDup (key <$> upsert key x rows).
Proof.
  induction rows as [|r rows IH]; simpl; intros Hnd.
  - apply NoDup_singleton.
  - apply NoDup_cons in Hnd as [Hnotin Hnd].
    destruct (decide (key r = key x)) as [E|E].
    + rewrite (bool_decide_eq_true_2 _ E). simpl.
      apply NoDup_cons. split; [by rewrite <- E | done].
    + rewrite (bool_decide_eq_false_2 _ E). rewrite fmap_cons.
      apply NoDup_cons. split; [|by apply IH].
      rewrite keys_upsert. intros [H|H]; [done | done].
Qed.

Lemma elem_of_upsert (x : A) (rows : list A) : x ∈ upsert key x rows.
Proof.
  induction rows as [|r rows IH]; simpl; [apply list_elem_of_here|].
  destruct (bool_decide (key r = key x));
    [apply list_elem_of_here | by apply list_elem_of_further].
Qed.

Lemma elem_of_upsert_ne (x r : A) (rows : list A) :
  r ∈ rows → key r ≠ key x → r ∈ upsert key x rows.
Proof.
  intros Hin Hne. induction rows as [|a rows IH]; simpl.
  - by apply elem_of_nil in Hin.
  - apply elem_of_cons in Hin as [->|Hin].
    + rewrite (bool_decide_eq_false_2 _ Hne). apply list_elem_of_here.
    + destruct (bool_decide (key a = key x)); apply list_elem_of_further;
        [done | by apply IH].
Qed.

(** ** The rows of a relation *)

Lemma relation_snoc (l : list A) (x : A) :
  relation key (l ++ [x]) = upsert key x (relation key l).
Proof. unfold relation. by rewrite foldl_app. Qed.

(** A relation holds one row per key. *)
Lemma relation_NoDup (l : list A) : NoDup (key <$> relation key l).
Proof.
  induction l as [|x l IH] using rev_ind; [apply NoDup_nil_2|].
  rewrite relation_snoc. by apply NoDup_keys_upsert.
Qed.

Lemma relation_id (l : list A) : NoDup (key <$> l) → relation key l = l.
Proof.
  induction l as [|x l IH] using rev_ind; [done|].
  rewrite fmap_app. intros Hnd. apply NoDup_app in Hnd as (Hl & Hdisj & _).
  rewrite relation_snoc, IH by done. apply upsert_fresh.
  intros r Hr E. apply (Hdisj (key r)).
  - apply list_elem_of_fmap. by exists r.
  - simpl. rewrite E. apply list_elem_of_here.
Qed.

Lemma relation_keys (l : list A) (k : nat) :
  k ∈ key <$> relation key l ↔ k ∈ key <$> l.
Proof.
  induction l as [|x l IH] using rev_ind; [done|].
  rewrite relation_snoc, keys_upsert, fmap_app, elem_of_app, IH.
  rewrite fmap_cons, elem_of_cons. split.
  - intros [H|H]; [by right; left | by left].
  - intros [H|[H|H]]; [by right | by left | by apply elem_of_nil in H].
Qed.

Lemma relation_last (l : list A) (x : A) : x ∈ relation key (l ++ [x]).
Proof. rewrite relation_snoc. apply elem_of_upsert. Qed.

(** An object of a key that has a row takes the place of that row, and
    an object that is stored already changes nothing; an object of a new
    key gets a new row. *)
Lemma relation_stored (l : list A) (x : A) :
  NoDup (key <$> l) → relation key (l ++ [x]) = upsert key x l.
Proof. intros Hnd. by rewrite relation_snoc, relation_id. Qed.

Lemma relation_again (l : list A) (x : A) :
  NoDup (key <$> l) → x ∈ l → relation key (l ++ [x]) = l.
Proof.
  intros Hnd Hin. rewrite relation_stored by done.
  apply upsert_found. by apply elem_findById.
Qed.

Lemma relation_new (l : list A) (x : A) :
  NoDup (key <$> l) → (key x ∉ key <$> l) → relation key (l ++ [x]) = l ++ [x].
Proof.
  intros Hnd Hnew. rewrite relation_stored by done. apply upsert_fresh.
  intros r Hr E. apply Hnew. rewrite <- E. apply list_elem_of_fmap. by exists r.
Qed.

(** With one row per key, at most one row has a given key. *)
Lemma one_row_per_key (l : list A) (k : nat) :
  NoDup (key <$> l) → (length (filter (λ x, key x = k) l) ≤ 1)%nat.
Proof.
  induction l as [|a l IH]; simpl; [lia|].
  intros Hnd. apply NoDup_cons in Hnd as [Hnotin Hnd].
  rewrite filter_cons. destruct (decide (key a = k)) as [E|E]; [|by apply IH].
  destruct (filter (λ x, key x = k) l) as [|b t] eqn:Ef; [simpl; lia|].
  exfalso. assert (Hb : b ∈ filter (λ x, key x = k) l)
    by (rewrite Ef; apply list_elem_of_here).
  apply list_elem_of_filter in Hb as [Hk Hb]. apply Hnotin.
  rewrite E, <- Hk. apply list_elem_of_fmap. by exists b.
Qed.


End RepositoryFacts.

(** ** Object identity *)

(** An object passed to a method is none of the objects that a query of
    the method builds. *)
Lemma includes_built_passed {A} (l : list A) (x : A) :
  includes (built l) (passed x) = false.
Proof.
  unfold includes. apply bool_decide_eq_false_2. intros H.
  apply Exists_exists in H as (o & Ho & Horigin).
  unfold built in Ho. apply elem_of_lookup_imap in Ho as (i & v & -> & _).
  discriminate Horigin.
Qed.

Lemma append_empty_r (s : string) : s +:+ "" = s.
Proof.
  induction s as [|c s IH]; [done|].
  change (String c (s +:+ "") = String c s). by rewrite IH.
Qed.

Lemma contains_suffix (pre needle : string) : contains needle (pre +:+ needle).
Proof. exists pre, "". by rewrite append_empty_r. Qed.

(** ** Group following (C9) *)

(** C9: for every group name, [followingForGroup] returns the empty array,
    whatever the state of the system is, and leaves that state alone. *)
Theorem followingForGroup_empty {AS : Type} (name : string) (w : World AS) :
  ApGroupService.followingForGroup name w = (Ok [], w).
Proof. reflexivity. Qed.

(** ** Actor URIs (C7) *)

Section IdentityFacts.
Variable serialize : URIComponents.t → string.

Lemma idForUser_stored (user : User.t) (s : string) :
  User.uri user = Some s → s ≠ "" → idForUser serialize user = s.
Proof.
  intros E Hs. unfold idForUser, truthy. rewrite E. simpl.
  by rewrite bool_decide_eq_true_2.
Qed.

Lemma idForGroup_stored (group : Group.t) (s : string) :
  Group.uri group = Some s → s ≠ "" → idForGroup serialize group = s.
Proof.
  intros E Hs. unfold idForGroup, truthy. rewrite E. simpl.
  by rewrite bool_decide_eq_true_2.
Qed.

End IdentityFacts.

(** C7: [idForUser] and [idForGroup] return the stored [uri] when it is set
    (a non-empty string), and otherwise the URI serialized from the scheme,
    host and port of the actor's home server with the path [/user/{name}],
    respectively [/group/{name}]; the value depends on nothing else, so
    repeated calls on the same actor yield the same value. *)
Theorem idFor_stored_or_derived (serialize : URIComponents.t → string) :
  (∀ user s, User.uri user = Some s → s ≠ "" →
     idForUser serialize user = s)
  ∧ (∀ user, truthy (User.uri user) = false →
     idForUser serialize user =
       serialize (URIComponents.mk (Server.scheme (User.server user))
                    (Server.host (User.server user))
                    (Server.port (User.server user))
                    ("/user/" +:+ User.name user)))
  ∧ (∀ group s, Group.uri group = Some s → s ≠ "" →
     idForGroup serialize group = s)
  ∧ (∀ group, truthy (Group.uri group) = false →
     idForGroup serialize group =
       serialize (URIComponents.mk (Server.scheme (Group.server group))
                    (Server.host (Group.server group))
                    (Server.port (Group.server group))
                    ("/group/" +:+ Group.name group)))
  ∧ (∀ user user', User.uri user = User.uri user' →
       User.name user = User.name user' →
       User.server user = User.server user' →
       idForUser serialize user = idForUser serialize user')
  ∧ (∀ group group', Group.uri group = Group.uri group' →
       Group.name group = Group.name group' →
       Group.server group = Group.server group' →
       idForGroup serialize group = idForGroup serialize group').
Proof.
  repeat split.
  - apply idForUser_stored.
  - intros user E. unfold idForUser. by rewrite E.
  - apply idForGroup_stored.
  - intros group E. unfold idForGroup. by rewrite E.
  - intros user user' E1 E2 E3. unfold idForUser. by rewrite E1, E2, E3.
  - intros group group' E1 E2 E3. unfold idForGroup. by rewrite E1, E2, E3.
Qed.

(** The derivation on the actors of the sample: a stored URI is returned
    as it is, a missing one is built from server and name. *)
Lemma idFor_stored_or_derived_witness :
  idForUser serializePlain Sample.U1 = "https://themis.example:8443/user/u1"
  ∧ idForUser serializePlain (User.mk 7 None "bob" Sample.here None)
    = "https://themis.example:8443/user/bob"
  ∧ idForGroup serializePlain (Sample.G None)
    = "https://themis.example:8443/group/rocq"
  ∧ idForGroup serializePlain (Group.mk 7 "ada" (Some "") Sample.away None
                                 Sample.groupActor)
    = "https://remote.example/group/ada".
Proof.
  destruct (idFor_stored_or_derived serializePlain)
    as (Hu & Hu' & Hg & Hg' & _ & _).
  split; [|split; [|split]].
  - apply Hu; [reflexivity | discriminate].
  - rewrite Hu'; reflexivity.
  - apply Hg; [reflexivity | discriminate].
  - rewrite Hg'; reflexivity.
Defined.

(** ** Pagination (C5) *)

(** C5: over [a,b,c,d,e] with page size 2, page 2 holds [c,d], counts 5
    items and has both a previous and a next link; page 3 holds [e] and has
    no next link. *)
Theorem createPagedCollection_pages (a b c d e uri : string) :
  let items := [a; b; c; d; e] in
  let page2 := createPagedCollection items 2 uri 2 in
  let page3 := createPagedCollection items 2 uri 3 in
  Collection.orderedItems page2 = [c; d]
  ∧ Collection.totalItems page2 = 5
  ∧ is_Some (Collection.prev page2)
  ∧ is_Some (Collection.next page2)
  ∧ Collection.orderedItems page3 = [e]
  ∧ Collection.next page3 = None.
Proof.
  simpl. repeat split; try reflexivity; eexists; reflexivity.
Qed.

(** ** Soft delete (C6) *)

Lemma findOneByUuid_upsert (post : Post.t) (rows : list Post.t) :
  (∀ q, q ∈ rows → Post.uuid q = Post.uuid post → Post.id q = Post.id post) →
  PostService.findOneByUuid (Post.uuid post) (upsert Post.id post rows)
  = Some post.
Proof.
  unfold PostService.findOneByUuid.
  induction rows as [|r rows IH]; intros Huniq; simpl.
  - by rewrite bool_decide_eq_true_2.
  - destruct (decide (Post.id r = Post.id post)) as [E|E].
    + rewrite (bool_decide_eq_true_2 _ E). simpl.
      by rewrite bool_decide_eq_true_2.
    + rewrite (bool_decide_eq_false_2 _ E). simpl.
      rewrite bool_decide_eq_false_2.
      * apply IH. intros q Hq. apply Huniq. by apply list_elem_of_further.
      * intros Hu. apply E, Huniq; [apply list_elem_of_here | done].
Qed.

(** C6 (amended): [softDelete] goes by [isLocalPost], which compares the
    server of the post with the local server field by field.  A post is
    deleted, that is saved with [deleted] set and then what a lookup by
    its UUID returns (UUIDs identify posts), when its server is the local
    one, and also when its server has the host and the scheme of the
    local one and a port that is the same or [undefined].  When host or
    scheme differ, or the port differs and is not [undefined] ([null] is
    not), the request is refused with [BadRequest] and nothing changes. *)
Theorem softDelete_by_server {AS : Type} (post : Post.t) (w : World AS) :
  let server := Post.server post in
  let flagged := Post.setDeleted true post in
  let deleted :=
    PostService.softDelete post w
    = (Ok flagged, setPosts (upsert Post.id flagged (posts w)) w)
    ∧ Post.deleted flagged = true
    ∧ ((∀ q, q ∈ posts w → Post.uuid q = Post.uuid post →
             Post.id q = Post.id post) →
       PostService.findOneByUuid (Post.uuid post)
         (posts (snd (PostService.softDelete post w)))
       = Some flagged) in
  let refused :=
    PostService.softDelete post w
    = (Err (BadRequestException (Some "Can't delete a non-local post")), w) in
  (server = local w → deleted)
  ∧ (Server.host server = Server.host (local w) →
     Server.scheme server = Server.scheme (local w) →
     Server.port server = Server.port (local w)
     ∨ Server.port server = PortUndefined →
     deleted)
  ∧ (Server.host server ≠ Server.host (local w) → refused)
  ∧ (Server.scheme server ≠ Server.scheme (local w) → refused)
  ∧ (Server.port server ≠ Server.port (local w) →
     Server.port server ≠ PortUndefined →
     refused).
Proof.
  intros server flagged deleted refused.
  assert (Hlocal :
    Server.host server = Server.host (local w) →
    Server.scheme server = Server.scheme (local w) →
    Server.port server = Server.port (local w)
    ∨ Server.port server = PortUndefined →
    fst (PostService.isLocalPost post w) = Ok true).
  { intros Hhost Hscheme Hport. subst server.
    unfold PostService.isLocalPost, mbind, M_bind, mret, M_ret, gets. simpl.
    rewrite !bool_decide_eq_true_2 by done. simpl.
    destruct Hport as [Hport|Hport].
    - by rewrite bool_decide_eq_true_2.
    - rewrite (bool_decide_eq_true_2 _ Hport). by rewrite orb_true_r. }
  assert (Hdeleted :
    Server.host server = Server.host (local w) →
    Server.scheme server = Server.scheme (local w) →
    Server.port server = Server.port (local w)
    ∨ Server.port server = PortUndefined →
    deleted).
  { intros Hhost Hscheme Hport.
    specialize (Hlocal Hhost Hscheme Hport). subst deleted flagged.
    revert Hlocal.
    unfold PostService.softDelete, PostService.isLocalPost, PostService.save.
    unfold mbind, M_bind, mret, M_ret, gets, modify, throw. simpl.
    intros [= ->].
    split; [reflexivity|]. split; [reflexivity|]. intros Huniq. simpl.
    apply (findOneByUuid_upsert (Post.setDeleted true post)). exact Huniq. }
  split; [|split; [exact Hdeleted|]].
  { intros Hserver. apply Hdeleted; rewrite Hserver; auto. }
  subst server refused.
  unfold PostService.softDelete, PostService.isLocalPost, PostService.save.
  unfold mbind, M_bind, mret, M_ret, gets, modify, throw. simpl.
  split; [|split].
  - intros Hhost. rewrite (bool_decide_eq_false_2 (_ = Server.host _)) by done.
    reflexivity.
  - intros Hscheme.
    rewrite (bool_decide_eq_false_2 (_ = Server.scheme _)) by done.
    by rewrite andb_false_r.
  - intros Hport Hdefined.
    rewrite (bool_decide_eq_false_2 (_ = Server.port _)) by done.
    rewrite (bool_decide_eq_false_2 (_ = PortUndefined)) by done.
    by rewrite andb_false_r.
Qed.

(** On the sample: the local post and the post of the server record
    without a port are flagged and still found by their UUIDs; the remote
    post and the post of the local host with a [null] port are refused. *)
Lemma softDelete_by_server_witness :
  (PostService.softDelete Sample.localPost Sample.followed
   = (Ok (Post.setDeleted true Sample.localPost),
      setPosts (upsert Post.id (Post.setDeleted true Sample.localPost)
                  (posts Sample.followed)) Sample.followed)
   ∧ PostService.findOneByUuid "6f1c"
       (posts (snd (PostService.softDelete Sample.localPost Sample.followed)))
     = Some (Post.setDeleted true Sample.localPost))
  ∧ (PostService.softDelete Sample.portlessPost Sample.followed
     = (Ok (Post.setDeleted true Sample.portlessPost),
        setPosts (upsert Post.id (Post.setDeleted true Sample.portlessPost)
                    (posts Sample.followed)) Sample.followed)
     ∧ PostService.findOneByUuid "c4d0"
         (posts (snd (PostService.softDelete Sample.portlessPost
                        Sample.followed)))
       = Some (Post.setDeleted true Sample.portlessPost))
  ∧ PostService.softDelete Sample.remotePost Sample.followed
    = (Err (BadRequestException (Some "Can't delete a non-local post")),
       Sample.followed)
  ∧ PostService.softDelete Sample.nullPortPost Sample.followed
    = (Err (BadRequestException (Some "Can't delete a non-local post")),
       Sample.followed).
Proof.
  assert (Huniq : ∀ post, post ∈ [Sample.localPost; Sample.portlessPost] →
            ∀ q, q ∈ posts Sample.followed → Post.uuid q = Post.uuid post →
                 Post.id q = Post.id post).
  { intros post Hpost q Hq Hu.
    repeat (apply elem_of_cons in Hpost as [->|Hpost]);
      [| |by apply elem_of_nil in Hpost];
      repeat (apply elem_of_cons in Hq as [->|Hq]);
      try (by apply elem_of_nil in Hq); try reflexivity; discriminate Hu. }
  split; [|split; [|split]].
  - destruct (softDelete_by_server Sample.localPost Sample.followed)
      as (Hlocal & _).
    destruct Hlocal as (Hrun & _ & Hfound); [reflexivity|].
    split; [exact Hrun|]. apply Hfound, Huniq, list_elem_of_here.
  - destruct (softDelete_by_server Sample.portlessPost Sample.followed)
      as (_ & Hfields & _).
    destruct Hfields as (Hrun & _ & Hfound);
      [reflexivity | reflexivity | by right |].
    split; [exact Hrun|].
    apply Hfound, Huniq, list_elem_of_further, list_elem_of_here.
  - destruct (softDelete_by_server Sample.remotePost Sample.followed)
      as (_ & _ & Hhost & _).
    apply Hhost. discriminate.
  - destruct (softDelete_by_server Sample.nullPortPost Sample.followed)
      as (_ & _ & _ & _ & Hport).
    apply Hport; discriminate.
Defined.

(** C6 as stated fails: the post of a server record that is not the
    local one, on the local host and without a port, is deleted. *)
Lemma softDelete_deletes_for_other_server :
  Post.server Sample.portlessPost ≠ local Sample.followed
  ∧ PostService.softDelete Sample.portlessPost Sample.followed
    = (Ok (Post.setDeleted true Sample.portlessPost),
       setPosts (upsert Post.id (Post.setDeleted true Sample.portlessPost)
                   (posts Sample.followed)) Sample.followed)
  ∧ fst (PostService.softDelete Sample.portlessPost Sample.followed)
    ≠ Err (BadRequestException (Some "Can't delete a non-local post")).
Proof. split; [discriminate | split; [reflexivity | discriminate]]. Qed.

(** ** Follower fan-out (C3, C8) *)

Section FanOut.
Context {AS : Type} {activityService : ActivityService AS}.

(** One run of [deliverToFollowers]: a single call of the delivery
    capability, and only what that call throws becomes an error. *)
Lemma deliverToFollowers_run (activity : Activity.t) (group withFollowers : Group.t)
    (followers : list User.t) (sender : User.t) (w : World AS) :
  findById Group.id (Group.id group) (groups w) = Some withFollowers →
  Group.followingUsers withFollowers = Some followers →
  Activity.sourceUser activity = Some sender →
  ApGroupService.deliverToFollowers activity group w
  = (match deliverTo activity (fanOutTargets sender followers) with
     | Throws e => Err (InternalServerErrorException e)
     | Promised _ => Ok activity
     end,
     logDelivery activity (fanOutTargets sender followers) w).
Proof.
  intros Hfound Hfollowers Hsender.
  unfold ApGroupService.deliverToFollowers, GroupService.getFollowers,
    ApGroupService.urisWithoutSender, callDeliverTo, fanOutTargets.
  unfold mbind, M_bind, mret, M_ret, gets, deref, throw. simpl.
  rewrite Hfound. simpl. rewrite Hfollowers. simpl.
  destruct followers as [|f followers]; simpl.
  - by destruct (deliverTo activity []) as [e|s].
  - rewrite Hsender. simpl.
    match goal with |- context [deliverTo activity ?t] =>
      by destruct (deliverTo activity t) as [e|s] end.
Qed.

End FanOut.

Section FanOutClaims.
Context {AS : Type} {activityService : ActivityService AS}.

(** C3 (amended): [deliverToFollowers] calls the delivery capability once,
    with the [uri] of every follower of the group whose [uri] differs from
    that of the activity's source user, in follower order.  The targets are
    the followers' actor URIs, not their inbox addresses. *)
Theorem deliverToFollowers_targets (activity : Activity.t)
    (group withFollowers : Group.t) (followers : list User.t)
    (sender : User.t) (w : World AS) :
  findById Group.id (Group.id group) (groups w) = Some withFollowers →
  Group.followingUsers withFollowers = Some followers →
  Activity.sourceUser activity = Some sender →
  delivered (snd (ApGroupService.deliverToFollowers activity group w))
  = delivered w
    ++ [(activity,
         toJValue <$> (User.uri <$>
           filter (λ f, User.uri f ≠ User.uri sender) followers))].
Proof.
  intros Hfound Hfollowers Hsender.
  by rewrite (deliverToFollowers_run _ _ _ _ _ _ Hfound Hfollowers Hsender).
Qed.

(** C8: a delivery that fails after [deliverTo] has returned its promise is
    not seen by [deliverToFollowers]: the promise is not awaited, the call
    answers with the activity, and the tables are as they were. *)
Theorem deliverToFollowers_rejection_unseen (activity : Activity.t)
    (group withFollowers : Group.t) (followers : list User.t)
    (sender : User.t) (e : Exception) (w : World AS) :
  findById Group.id (Group.id group) (groups w) = Some withFollowers →
  Group.followingUsers withFollowers = Some followers →
  Activity.sourceUser activity = Some sender →
  deliverTo activity (fanOutTargets sender followers) = Promised (Rejected e) →
  ApGroupService.deliverToFollowers activity group w
  = (Ok activity, logDelivery activity (fanOutTargets sender followers) w).
Proof.
  intros Hfound Hfollowers Hsender Hrejected.
  rewrite (deliverToFollowers_run _ _ _ _ _ _ Hfound Hfollowers Hsender).
  by rewrite Hrejected.
Qed.

End FanOutClaims.

Section FanOutSample.
Import Sample.

(** Followers [U1,U2,U3], activity sourced by [U2]: the targets are the
    URIs of [U1] and [U3]. *)
Lemma deliverToFollowers_targets_witness :
  delivered (snd (ApGroupService.deliverToFollowers
                    (activityService := svc)
                    knownCreate (G None) followed))
  = [(knownCreate, [JStr "https://themis.example:8443/user/u1";
                    JStr "https://themis.example:8443/user/u3"])].
Proof.
  rewrite (deliverToFollowers_targets
             (activityService := svc)
             knownCreate (G None) (G (Some [U1; U2; U3])) [U1; U2; U3] U2 followed);
    reflexivity.
Defined.

(** C3 as stated fails: the targets are not the inbox addresses of [U1]
    and [U3]. *)
Lemma deliverToFollowers_targets_not_inboxes :
  delivered (snd (ApGroupService.deliverToFollowers
                    (activityService := svc)
                    knownCreate (G None) followed))
  ≠ [(knownCreate, [inboxOf U1; inboxOf U3])].
Proof. intros H. vm_compute in H. discriminate H. Qed.

(** The delivery to [U1] fails; the fan-out still answers with the
    activity. *)
Lemma deliverToFollowers_rejection_unseen_witness :
  ApGroupService.deliverToFollowers
    (activityService := svcU1down)
    knownCreate (G None) followed
  = (Ok knownCreate, logDelivery knownCreate (fanOutTargets U2 [U1; U2; U3]) followed).
Proof.
  apply (deliverToFollowers_rejection_unseen
           (activityService := svcU1down)
           knownCreate (G None) (G (Some [U1; U2; U3])) [U1; U2; U3] U2
           (Error "ECONNREFUSED") followed); reflexivity.
Defined.

(** The same through the inbox: the relayed [Create] is answered with
    success although a follower could not be reached. *)
Example handleIncoming_failed_delivery :
  ∃ sent, fst (ApGroupService.handleIncoming
                 (activityService := svcU1down)
                 "rocq" createPayload followed) = Ok (RActivity sent).
Proof. eexists. vm_compute. reflexivity. Qed.

End FanOutSample.

(** ** Dispatch of unknown and unimplemented types (C4) *)

(** [Hout] says that the type is outside a list of [case] labels; the goal
    says that it is not one of them, or not in a part of the list. *)
Ltac other_case Hout :=
  let E := fresh "E" in
  intros E; apply Hout;
  repeat (apply elem_of_cons in E as [->|E]);
  try (by apply elem_of_nil in E);
  try (rewrite E);
  apply (bool_decide_unpack _); vm_compute; exact I.

Section Dispatch.
Context {AS : Type} {activityService : ActivityService AS}
  {apPostService : ApPostService AS}.

Lemma userOutbox_default (username : string) (user : User.t)
    (data : Payload.t) (w : World AS) :
  fst (UserService.findLocalByName username w) = Ok user →
  Payload.content data = JNull →
  Payload.type data ∉ userCases →
  ApUserService.acceptPostRequest username data w
  = (Err (BadRequestException
            (Some ("Invalid activity type " +:+ Payload.type data))), w).
Proof.
  intros Huser Hcontent Hout.
  unfold ApUserService.acceptPostRequest, UserService.findLocalByName in *.
  unfold mbind, M_bind, throw.
  destruct (List.find _ (users w)) as [u|]; [|discriminate Huser].
  simpl in *. rewrite Hcontent. simpl.
  unfold userCases in Hout.
  repeat (rewrite bool_decide_eq_false_2; [|other_case Hout]).
  reflexivity.
Qed.

Lemma userOutbox_Update (username : string) (user : User.t)
    (data : Payload.t) (w : World AS) :
  fst (UserService.findLocalByName username w) = Ok user →
  Payload.content data = JNull →
  Payload.type data = "Update" →
  ApUserService.acceptPostRequest username data w
  = (Err NotImplementedException, w).
Proof.
  intros Huser Hcontent Htype.
  unfold ApUserService.acceptPostRequest, UserService.findLocalByName in *.
  unfold mbind, M_bind, throw.
  destruct (List.find _ (users w)) as [u|]; [|discriminate Huser].
  simpl in *. rewrite Hcontent. simpl. rewrite Htype. reflexivity.
Qed.

Lemma groupOutbox_default (groupname : string) (group : Group.t)
    (data : Payload.t) (w : World AS) :
  fst (GroupService.findLocalByName groupname w) = Ok group →
  Payload.type data ∉ groupCases →
  ApGroupService.acceptPostRequest groupname data w
  = (Err (BadRequestException
            (Some ("Invalid activity type " +:+ Payload.type data))), w).
Proof.
  intros Hgroup Hout.
  unfold ApGroupService.acceptPostRequest, GroupService.findLocalByName in *.
  unfold mbind, M_bind, throw.
  destruct (List.find _ (groups w)) as [g|]; [|discriminate Hgroup].
  simpl in *. unfold groupCases in Hout.
  repeat (rewrite bool_decide_eq_false_2; [|other_case Hout]).
  reflexivity.
Qed.

Lemma groupOutbox_Update (groupname : string) (group : Group.t)
    (data : Payload.t) (w : World AS) :
  fst (GroupService.findLocalByName groupname w) = Ok group →
  Payload.type data = "Update" →
  ApGroupService.acceptPostRequest groupname data w
  = (Err ImATeapotException, w).
Proof.
  intros Hgroup Htype.
  unfold ApGroupService.acceptPostRequest, GroupService.findLocalByName in *.
  unfold mbind, M_bind, throw.
  destruct (List.find _ (groups w)) as [g|]; [|discriminate Hgroup].
  simpl in *. rewrite Htype. reflexivity.
Qed.

Lemma groupInbox_default (groupname : string) (group : Group.t)
    (data : Payload.t) (w : World AS) :
  fst (GroupService.findLocalByName groupname w) = Ok group →
  Payload.type data ≠ "Create" →
  Payload.type data ≠ "Follow" →
  ApGroupService.handleIncoming groupname data w
  = (Err NotImplementedException, w).
Proof.
  intros Hgroup Hcreate Hfollow.
  unfold ApGroupService.handleIncoming, GroupService.findLocalByName in *.
  unfold findActivityByUri, mbind, M_bind, throw, gets.
  destruct (List.find _ (groups w)) as [g|]; [|discriminate Hgroup].
  simpl in *.
  rewrite (bool_decide_eq_false_2 _ Hcreate).
  rewrite (bool_decide_eq_false_2 _ Hfollow).
  reflexivity.
Qed.

(** C4 (amended): with the owner found and a payload that is an activity,
    - the user outbox answers a type outside its [case] labels with
      [BadRequest] whose message contains the type, and [Update] with
      [NotImplemented];
    - the group outbox answers a type outside the recognized set with
      [BadRequest] whose message contains the type, and [Update] with
      [ImATeapot];
    - the group inbox answers every type other than [Create] and [Follow]
      with [NotImplemented]. *)
Theorem dispatch_unknown_and_Update (w : World AS) :
  (∀ username user data,
     fst (UserService.findLocalByName username w) = Ok user →
     Payload.content data = JNull →
     (Payload.type data ∉ userCases →
      ∃ msg, ApUserService.acceptPostRequest username data w
             = (Err (BadRequestException (Some msg)), w)
             ∧ contains (Payload.type data) msg)
     ∧ (Payload.type data = "Update" →
        ApUserService.acceptPostRequest username data w
        = (Err NotImplementedException, w)))
  ∧ (∀ groupname group data,
       fst (GroupService.findLocalByName groupname w) = Ok group →
       (Payload.type data ∉ groupCases →
        ∃ msg, ApGroupService.acceptPostRequest groupname data w
               = (Err (BadRequestException (Some msg)), w)
               ∧ contains (Payload.type data) msg)
       ∧ (Payload.type data = "Update" →
          ApGroupService.acceptPostRequest groupname data w
          = (Err ImATeapotException, w))
       ∧ (Payload.type data ≠ "Create" → Payload.type data ≠ "Follow" →
          ApGroupService.handleIncoming groupname data w
          = (Err NotImplementedException, w))).
Proof.
  split.
  - intros username user data Huser Hcontent. split.
    + intros Hout. eexists. split.
      * by apply (userOutbox_default _ user).
      * apply contains_suffix.
    + by apply (userOutbox_Update _ user).
  - intros groupname group data Hgroup. split; [|split].
    + intros Hout. eexists. split.
      * by apply (groupOutbox_default _ group).
      * apply contains_suffix.
    + by apply (groupOutbox_Update _ group).
    + by apply (groupInbox_default _ group).
Qed.

End Dispatch.

Section DispatchSample.
Import Sample.

(** ["Foo"] and ["Update"] at the three entry points of the sample. *)
Lemma dispatch_unknown_and_Update_witness :
  (∃ msg, ApUserService.acceptPostRequest
            (activityService := svc) (apPostService := psvc)
            "u1" (typed "Foo") followed
          = (Err (BadRequestException (Some msg)), followed)
          ∧ contains "Foo" msg)
  ∧ ApUserService.acceptPostRequest
      (activityService := svc) (apPostService := psvc)
      "u1" (typed "Update") followed
    = (Err NotImplementedException, followed)
  ∧ (∃ msg, ApGroupService.acceptPostRequest (activityService := svc)
              "rocq" (typed "Foo") followed
            = (Err (BadRequestException (Some msg)), followed)
            ∧ contains "Foo" msg)
  ∧ ApGroupService.acceptPostRequest (activityService := svc)
      "rocq" (typed "Update") followed
    = (Err ImATeapotException, followed)
  ∧ ApGroupService.handleIncoming (activityService := svc)
      "rocq" (typed "Foo") followed
    = (Err NotImplementedException, followed)
  ∧ ApGroupService.handleIncoming (activityService := svc)
      "rocq" (typed "Update") followed
    = (Err NotImplementedException, followed).
Proof.
  destruct (dispatch_unknown_and_Update
              (activityService := svc) (apPostService := psvc) followed)
    as [Huser Hgroup].
  destruct (Huser "u1" U1 (typed "Foo") eq_refl eq_refl) as [HuFoo _].
  destruct (Huser "u1" U1 (typed "Update") eq_refl eq_refl) as [_ HuUpd].
  destruct (Hgroup "rocq" (G (Some [U1; U2; U3])) (typed "Foo") eq_refl)
    as (HgFoo & _ & HiFoo).
  destruct (Hgroup "rocq" (G (Some [U1; U2; U3])) (typed "Update") eq_refl)
    as (_ & HgUpd & HiUpd).
  split; [|split; [|split; [|split; [|split]]]].
  - apply HuFoo. apply (bool_decide_unpack _). vm_compute. exact I.
  - apply HuUpd. reflexivity.
  - apply HgFoo. apply (bool_decide_unpack _). vm_compute. exact I.
  - apply HgUpd. reflexivity.
  - apply HiFoo; discriminate.
  - apply HiUpd; discriminate.
Defined.

(** C4 as stated fails at two of the entry points: the group inbox answers
    ["Foo"] with [NotImplemented], not [BadRequest], and the group outbox
    answers ["Update"] with [ImATeapot], not [NotImplemented]. *)
Lemma dispatch_claim_fails_for_groups :
  (∀ message,
     fst (ApGroupService.handleIncoming (activityService := svc)
            "rocq" (typed "Foo") followed)
     ≠ Err (BadRequestException message))
  ∧ fst (ApGroupService.acceptPostRequest (activityService := svc)
           "rocq" (typed "Update") followed)
    ≠ Err NotImplementedException.
Proof. split; [intros message|]; intros H; vm_compute in H; discriminate H. Qed.

End DispatchSample.

(** ** The group inbox: Follow (C2) *)

Section GroupInbox.
Context {AS : Type} {activityService : ActivityService AS}.

Lemma findLocalByName_world (groupname : string) (w : World AS) :
  snd (GroupService.findLocalByName groupname w) = w.
Proof.
  unfold GroupService.findLocalByName. by destruct (List.find _ (groups w)).
Qed.

Lemma findByUri_world (uri : JValue) (w : World AS) :
  snd (UserService.findByUri uri w) = w.
Proof.
  unfold UserService.findByUri.
  destruct uri as [|s|r]; try done. by destruct (List.find _ (users w)).
Qed.

Lemma groupFind_found (groupname : string) (group : Group.t) (w : World AS) :
  fst (GroupService.findLocalByName groupname w) = Ok group →
  GroupService.findLocalByName groupname w = (Ok group, w).
Proof.
  unfold GroupService.findLocalByName.
  destruct (List.find _ (groups w)); simpl; [|discriminate].
  by intros [= ->].
Qed.

Lemma groupFind_elim (groupname : string) (group : Group.t) (w : World AS) :
  fst (GroupService.findLocalByName groupname w) = Ok group →
  List.find (λ g, bool_decide (Group.name g = groupname)
                  && bool_decide (Group.server g = local w)) (groups w)
  = Some group.
Proof.
  unfold GroupService.findLocalByName.
  destruct (List.find _ (groups w)); simpl; [|discriminate].
  by intros [= ->].
Qed.

Lemma groupFind_intro (groupname : string) (group : Group.t) (w : World AS) :
  List.find (λ g, bool_decide (Group.name g = groupname)
                  && bool_decide (Group.server g = local w)) (groups w)
  = Some group →
  GroupService.findLocalByName groupname w = (Ok group, w).
Proof. intros Hfind. unfold GroupService.findLocalByName. by rewrite Hfind. Qed.

(** The group that a name leads to has that name. *)
Lemma groupFind_name (groupname : string) (group : Group.t) (w : World AS) :
  fst (GroupService.findLocalByName groupname w) = Ok group →
  Group.name group = groupname.
Proof.
  intros Hgroup. apply groupFind_elim in Hgroup.
  apply List.find_some in Hgroup as [_ HP].
  apply andb_prop in HP as [Hn _]. by apply bool_decide_eq_true in Hn.
Qed.

Lemma userFindByUri_found (uri : JValue) (user : User.t) (w : World AS) :
  fst (UserService.findByUri uri w) = Ok user →
  UserService.findByUri uri w = (Ok user, w).
Proof.
  intros H. pose proof (findByUri_world uri w) as Hw.
  destruct (UserService.findByUri uri w) as [r w']. simpl in *. by subst.
Qed.

Lemma userFindByUri_users (uri : JValue) (w w' : World AS) :
  users w' = users w →
  fst (UserService.findByUri uri w') = fst (UserService.findByUri uri w).
Proof.
  intros Husers. unfold UserService.findByUri. rewrite Husers.
  destruct uri as [|s|r]; try done. by destruct (List.find _ (users w)).
Qed.

Lemma setFollowingUsers_same (group : Group.t) (followers : list User.t) :
  Group.followingUsers group = Some followers →
  Group.setFollowingUsers (Some followers) group = group.
Proof. destruct group. simpl. by intros ->. Qed.

(** One run of [addFollower] on a stored group.  The user that is passed
    in is none of the follower objects that the query has built, so the
    test with [includes] never finds it: the user is pushed, the group is
    saved, and the answer is [true]. *)
Lemma addFollower_run (group fullGroup : Group.t) (user : User.t) (w : World AS) :
  findById Group.id (Group.id group) (groups w) = Some fullGroup →
  let before := default [] (Group.followingUsers fullGroup) in
  GroupService.addFollower group user w
  = (Ok true,
     setGroups (upsert Group.id
                  (Group.setFollowingUsers
                     (Some (relation User.id (before ++ [user]))) fullGroup)
                  (groups w)) w).
Proof.
  intros Hfound before. subst before.
  unfold GroupService.addFollower, GroupService.getFollowers, GroupService.save.
  unfold mbind, M_bind, mret, M_ret, gets, modify, deref. simpl.
  rewrite Hfound. simpl. rewrite includes_built_passed. simpl.
  by destruct fullGroup.
Qed.

(** The run of the [Accept] branch of the group outbox, once the Follow it
    refers to is found. *)
Lemma groupOutbox_Accept_run (groupname : string) (data : Payload.t)
    (group : Group.t) (request : Activity.t) (w : World AS) :
  Payload.type data = "Accept" →
  fst (GroupService.findLocalByName groupname w) = Ok group →
  findByUri (activities w) (Payload.object data) = Some request →
  ApGroupService.acceptPostRequest groupname data w
  = match save (activities w)
            (ApGroupService.acceptEntity group (Activity.sourceUser request) data) with
    | (Err e, s) => (Err e, setActivities s w)
    | (Ok act, s) =>
        (match deliverTo act [Payload.target data] with
         | Throws e | Promised (Rejected e) => Err e
         | Promised Fulfilled => Ok (RPayload (Activity.activityObject act))
         end,
         logDelivery act [Payload.target data] (setActivities s w))
    end.
Proof.
  intros Htype Hgroup Hrequest. apply groupFind_found in Hgroup.
  unfold ApGroupService.acceptPostRequest.
  unfold mbind at 1. unfold M_bind at 1. rewrite Hgroup.
  rewrite Htype. simpl.
  unfold findActivityByUri, saveActivity, callDeliverTo, await.
  unfold mbind, M_bind, mret, M_ret, gets, deref, throw. simpl.
  rewrite Hrequest. unfold mret, M_ret. simpl.
  destruct (save _ _) as [[act|e] s]; [|done].
  by destruct (deliverTo act [Payload.target data]) as [e|[|e]].
Qed.

(** The group outbox writes to the activity store and the delivery record
    only, and it never answers with a boolean. *)
Lemma groupOutbox_frame (groupname : string) (data : Payload.t) (w : World AS) :
  ∃ s d, snd (ApGroupService.acceptPostRequest groupname data w)
         = mkWorld (local w) (groups w) (users w) (posts w) s d.
Proof.
  unfold ApGroupService.acceptPostRequest.
  unfold mbind at 1. unfold M_bind at 1.
  pose proof (findLocalByName_world groupname w) as Hw.
  destruct (GroupService.findLocalByName groupname w) as [[group|e] w0];
    simpl in Hw; subst w0; destruct w as [lcl gs us ps acts log];
    [|by eexists _, _].
  destruct (bool_decide (Payload.type data = "Accept")).
  - unfold findActivityByUri, saveActivity, callDeliverTo, await.
    unfold mbind, M_bind, mret, M_ret, gets, deref, throw. simpl.
    destruct (findByUri acts (Payload.object data)); simpl;
      [|by eexists _, _].
    unfold mret, M_ret. simpl.
    destruct (save _ _) as [[act|e] s]; [|by eexists _, _].
    by destruct (deliverTo act [Payload.target data]) as [e|[|e]];
      eexists _, _.
  - by destruct (bool_decide (Payload.type data ∈ _)); eexists _, _.
Qed.

Lemma groupOutbox_no_boolean (groupname : string) (data : Payload.t)
    (w : World AS) (b : bool) :
  fst (ApGroupService.acceptPostRequest groupname data w) ≠ Ok (RBool b).
Proof.
  unfold ApGroupService.acceptPostRequest.
  unfold mbind at 1. unfold M_bind at 1.
  destruct (GroupService.findLocalByName groupname w) as [[group|e] w0];
    [|done].
  destruct (bool_decide (Payload.type data = "Accept")).
  - unfold findActivityByUri, saveActivity, callDeliverTo, await.
    unfold mbind, M_bind, mret, M_ret, gets, deref, throw. simpl.
    destruct (findByUri (activities w0) (Payload.object data)); simpl;
      [|done].
    unfold mret, M_ret. simpl.
    destruct (save _ _) as [[act|e] s]; [|done].
    by destruct (deliverTo act [Payload.target data]) as [e|[|e]].
  - by destruct (bool_decide (Payload.type data ∈ _)).
Qed.

(** The run of the Follow branch: when the Follow activity has been saved,
    the user is saved as a follower of the group and the synthesized
    Accept is dispatched, whoever the user is. *)
Lemma handleIncoming_Follow_run (groupname : string) (data : Payload.t)
    (group fullGroup : Group.t) (user : User.t) (w : World AS) :
  Payload.type data = "Follow" →
  fst (GroupService.findLocalByName groupname w) = Ok group →
  fst (UserService.findByUri (Payload.actor data) w) = Ok user →
  findById Group.id (Group.id group) (groups w) = Some fullGroup →
  let before := default [] (Group.followingUsers fullGroup) in
  ApGroupService.handleIncoming groupname data w
  = match save (activities w) (followEntity group data (activities w)) with
    | (Err e, s) => (Err e, setActivities s w)
    | (Ok _, s) =>
        ApGroupService.acceptPostRequest (Group.name group)
          (createAcceptActivity (Group.uri group) (Payload.id data)
                                (User.uri user))
          (setGroups
             (upsert Group.id
                (Group.setFollowingUsers
                   (Some (relation User.id (before ++ [user]))) fullGroup)
                (groups w))
             (setActivities s w))
    end.
Proof.
  intros Htype Hgroup Huser Hfound before.
  apply groupFind_found in Hgroup. apply userFindByUri_found in Huser.
  unfold ApGroupService.handleIncoming.
  unfold mbind at 1. unfold M_bind at 1. rewrite Hgroup.
  unfold findActivityByUri, gets. unfold mbind at 1. unfold M_bind at 1.
  rewrite Htype. simpl.
  unfold mbind at 1. unfold M_bind at 1. rewrite Huser.
  unfold mbind at 1. unfold M_bind at 1.
  unfold saveActivity, followEntity.
  destruct (save _ _) as [[saved|e] s]; [|done].
  unfold mbind at 1. unfold M_bind at 1.
  by rewrite (addFollower_run group fullGroup user (setActivities s w) Hfound).
Qed.

(** C2: a Follow of a group by a user who is a follower already is not
    answered with [false].  [addFollower] answers [true] again, because
    [includes] compares the user object it was passed with the follower
    objects of its own query; so the Accept is synthesized and dispatched
    a second time, and once it is saved it is delivered to the follower
    again.  The follower relation keeps one row per user: it has the
    followers it had, and when the stored follower is the same as the
    user the group table is exactly as it was. *)
Theorem follow_again_accepted_again (groupname : string) (data : Payload.t)
    (group : Group.t) (user : User.t) (followers : list User.t)
    (saved : Activity.t) (s : AS) (w : World AS) :
  Payload.type data = "Follow" →
  NoDup (Group.id <$> groups w) →
  fst (GroupService.findLocalByName groupname w) = Ok group →
  fst (UserService.findByUri (Payload.actor data) w) = Ok user →
  Group.followingUsers group = Some followers →
  NoDup (User.id <$> followers) →
  User.id user ∈ User.id <$> followers →
  save (activities w) (followEntity group data (activities w)) = (Ok saved, s) →
  let accept :=
    createAcceptActivity (Group.uri group) (Payload.id data) (User.uri user) in
  let after := upsert User.id user followers in
  let group' := Group.setFollowingUsers (Some after) group in
  let w' := setGroups (upsert Group.id group' (groups w)) (setActivities s w) in
  let out := ApGroupService.handleIncoming groupname data w in
  GroupService.addFollower group user (setActivities s w) = (Ok true, w')
  ∧ User.id <$> after = User.id <$> followers
  ∧ (user ∈ followers → w' = setActivities s w)
  ∧ out = ApGroupService.acceptPostRequest (Group.name group) accept w'
  ∧ fst out ≠ Ok (RBool false)
  ∧ (∀ request act s',
       Payload.type accept = "Accept" →
       findByUri s (Payload.object accept) = Some request →
       save s (ApGroupService.acceptEntity group'
                 (Activity.sourceUser request) accept) = (Ok act, s') →
       delivered (snd out) = delivered w ++ [(act, [Payload.target accept])]).
Proof.
  intros Htype Hnodup Hgroup Huser Hfollowers Hdistinct Hin Hsave
    accept after group' w' out.
  pose proof (groupFind_elim _ _ _ Hgroup) as Hfind.
  pose proof (find_findById Group.id _ _ _ Hnodup Hfind) as Hfound.
  assert (Hafter : relation User.id
                     (default [] (Group.followingUsers group) ++ [user])
                   = after).
  { rewrite Hfollowers. simpl. by apply relation_stored. }
  assert (Hout : out = ApGroupService.acceptPostRequest
                         (Group.name group) accept w').
  { subst out.
    rewrite (handleIncoming_Follow_run _ _ _ _ _ _ Htype Hgroup Huser Hfound).
    by rewrite Hsave, Hafter. }
  split; [|split; [|split; [|split; [|split]]]].
  - rewrite (addFollower_run group group user (setActivities s w) Hfound).
    by rewrite Hafter.
  - by apply keys_upsert_stored.
  - intros Hstored. subst w' group' after.
    rewrite (upsert_found User.id user followers)
      by (by apply elem_findById).
    rewrite (setFollowingUsers_same group followers Hfollowers).
    by rewrite (upsert_found Group.id group (groups w) Hfound).
  - exact Hout.
  - rewrite Hout. apply groupOutbox_no_boolean.
  - intros request act s' Haccept Hrequest Hsaved. rewrite Hout.
    assert (Hgroup' : fst (GroupService.findLocalByName (Group.name group) w')
                      = Ok group').
    { erewrite groupFind_intro; [done|]. subst w'. simpl.
      rewrite (groupFind_name _ _ _ Hgroup).
      apply (find_upsert Group.id _ _ group); try done.
      apply (List.find_some _ _) in Hfind as [_ HP]. exact HP. }
    rewrite (groupOutbox_Accept_run _ _ _ request _ Haccept Hgroup')
      by exact Hrequest.
    simpl. by rewrite Hsaved.
Qed.

Lemma pushDestination_uri (group : Group.t) (a : Activity.t) :
  Activity.uri (ApGroupService.pushDestination group a) = Activity.uri a.
Proof.
  unfold ApGroupService.pushDestination.
  by destruct (Activity.destinationGroups a).
Qed.

(** The run of the [Create] branch for an activity that is known: the
    entity is saved and then fanned out. *)
Lemma handleIncoming_Create_run (groupname : string) (data : Payload.t)
    (group : Group.t) (known : Activity.t) (w : World AS) :
  Payload.type data = "Create" →
  fst (GroupService.findLocalByName groupname w) = Ok group →
  findByUri (activities w) (Payload.id data) = Some known →
  truthy (Activity.uri known) = true →
  (∀ repr, Payload.audience data ≠ AudOther repr) →
  ApGroupService.handleIncoming groupname data w
  = (saved ← saveActivity
               (ApGroupService.relayedEntity group
                  (ApGroupService.pushDestination group known)
                  (stamped group data));
     sent ← ApGroupService.deliverToFollowers saved group;
     mret (RActivity sent)) w.
Proof.
  intros Htype Hgroup Hknown Huri Haud. apply groupFind_found in Hgroup.
  unfold ApGroupService.handleIncoming.
  unfold mbind at 1. unfold M_bind at 1. rewrite Hgroup.
  unfold findActivityByUri, gets. unfold mbind at 1. unfold M_bind at 1.
  rewrite Htype, Hknown. simpl. rewrite pushDestination_uri, Huri.
  unfold ApGroupService.stampAudience, stamped.
  destruct (Payload.audience data) as [|items|repr] eqn:Eaud;
    [reflexivity | reflexivity | by destruct (Haud repr)].
Qed.

End GroupInbox.

Section InboxSample.
Import Sample.

(** [U1] is not yet a follower; the first Follow is accepted. *)
Example first_follow_accepted :
  ∃ accept, fst (ApGroupService.handleIncoming (activityService := svc)
                   "rocq" (followPayload U1) beforeFollow) = Ok (RPayload accept)
            ∧ Payload.type accept = "Accept"
            ∧ Group.followingUsers <$> groups afterFollow = [Some [U2; U3; U1]]
            ∧ length (delivered afterFollow) = 1.
Proof. eexists. vm_compute. repeat split. Qed.

(** The same Follow again: [addFollower] answers [true], the group table
    stays as it is, and the Accept is dispatched again. *)
Lemma follow_again_accepted_again_witness :
  ∃ s, let w' := setActivities s afterFollow in
       let out := ApGroupService.handleIncoming (activityService := svc)
                    "rocq" (followPayload U1) afterFollow in
       GroupService.addFollower (G (Some [U2; U3; U1])) U1 w' = (Ok true, w')
       ∧ out = ApGroupService.acceptPostRequest (activityService := svc)
                 "rocq"
                 (TableStore.createAcceptActivity
                    (Some groupUri) (Payload.id (followPayload U1))
                    (User.uri U1)) w'
       ∧ fst out ≠ Ok (RBool false).
Proof.
  eexists.
  edestruct (λ saved st,
               follow_again_accepted_again (activityService := svc)
                 "rocq" (followPayload U1)
                 (G (Some [U2; U3; U1])) U1 [U2; U3; U1] saved st afterFollow)
    as (Hadd & _ & Hsame & Hout & Hanswer & _).
  - reflexivity.
  - apply (bool_decide_unpack _). vm_compute. exact I.
  - reflexivity.
  - reflexivity.
  - reflexivity.
  - apply (bool_decide_unpack _). vm_compute. exact I.
  - apply (bool_decide_unpack _). vm_compute. exact I.
  - vm_compute. reflexivity.
  - assert (Hstored : U1 ∈ [U2; U3; U1])
      by (apply (bool_decide_unpack _); vm_compute; exact I).
    rewrite (Hsame Hstored) in Hadd, Hout.
    split; [exact Hadd|]. split; [exact Hout | exact Hanswer].
Defined.

(** C2 as stated fails on the sample: the second Follow of [U1] is
    answered with a second Accept, which is delivered to [U1] again, and
    not with [false]. *)
Example follow_again_second_accept :
  let out := ApGroupService.handleIncoming (activityService := svc)
               "rocq" (followPayload U1) afterFollow in
  (∃ accept, fst out = Ok (RPayload accept) ∧ Payload.type accept = "Accept")
  ∧ Group.followingUsers <$> groups (snd out) = [Some [U2; U3; U1]]
  ∧ snd <$> delivered (snd out)
    = [[JStr "https://themis.example:8443/user/u1"];
       [JStr "https://themis.example:8443/user/u1"]].
Proof. split; [eexists|]; vm_compute; repeat split. Qed.

End InboxSample.

(** ** The group inbox and the activity store (C1) *)

(** Every step of the dispatchers of [ApGroupService] keeps what [save]
    keeps: the activity store is written through [save] only. *)
Section StoreFrames.
Context {AS : Type} {activityService : ActivityService AS}.
Variable inv : AS → Prop.
Hypothesis save_keeps : ∀ s a, inv s → inv (snd (save s a)).

Lemma Keeps_ret {A} (a : A) : Keeps inv (mret a).
Proof. by intros w. Qed.

Lemma Keeps_throw {A} (e : Exception) : Keeps inv (throw (A := A) e).
Proof. by intros w. Qed.

Lemma Keeps_bind {A B} (m : M (World AS) A) (f : A → M (World AS) B) :
  Keeps inv m → (∀ a, Keeps inv (f a)) → Keeps inv (m ≫= f).
Proof.
  intros Hm Hf w Hw. unfold mbind, M_bind. specialize (Hm w Hw).
  destruct (m w) as [[a|e] w']; simpl in *; [by apply Hf | done].
Qed.

Lemma Keeps_frame {A} (m : M (World AS) A) :
  (∀ w, activities (snd (m w)) = activities w) → Keeps inv m.
Proof. intros H w Hw. by rewrite H. Qed.

Lemma Keeps_deref {A} (o : option A) : Keeps inv (deref o).
Proof. by destruct o; intros w. Qed.

Lemma Keeps_await (d : Delivery) : Keeps inv (await d).
Proof. by destruct d as [e|[|e]]; intros w. Qed.

Lemma Keeps_findLocalByName (groupname : string) :
  Keeps inv (GroupService.findLocalByName groupname).
Proof. apply Keeps_frame. intros w. by rewrite findLocalByName_world. Qed.

Lemma Keeps_findByUri (uri : JValue) : Keeps inv (UserService.findByUri uri).
Proof. apply Keeps_frame. intros w. by rewrite findByUri_world. Qed.

Lemma Keeps_findActivityByUri (uri : JValue) : Keeps inv (findActivityByUri uri).
Proof. by intros w. Qed.

Lemma Keeps_saveActivity (a : Activity.t) : Keeps inv (saveActivity a).
Proof.
  intros w Hw. unfold saveActivity.
  pose proof (save_keeps (activities w) a Hw) as Hs.
  by destruct (save (activities w) a) as [r s].
Qed.

Lemma Keeps_callDeliverTo (a : Activity.t) (targets : list JValue) :
  Keeps inv (callDeliverTo a targets).
Proof. by intros w. Qed.

Lemma Keeps_getFollowers (group : Group.t) :
  Keeps inv (GroupService.getFollowers group).
Proof. by intros w. Qed.

Lemma Keeps_addFollower (group : Group.t) (user : User.t) :
  Keeps inv (GroupService.addFollower group user).
Proof.
  apply Keeps_frame. intros w.
  unfold GroupService.addFollower, GroupService.getFollowers, GroupService.save.
  unfold mbind, M_bind, mret, M_ret, gets, modify, deref, throw. simpl.
  destruct (findById Group.id (Group.id group) (groups w)) as [g|]; simpl;
    [|done].
  by rewrite includes_built_passed.
Qed.

Lemma Keeps_deliverToFollowers (activity : Activity.t) (group : Group.t) :
  Keeps inv (ApGroupService.deliverToFollowers activity group).
Proof.
  unfold ApGroupService.deliverToFollowers.
  apply Keeps_bind; [apply Keeps_getFollowers | intros found].
  apply Keeps_bind; [apply Keeps_deref | intros withFollowers].
  apply Keeps_bind; [apply Keeps_deref | intros followers].
  apply Keeps_bind.
  - unfold ApGroupService.urisWithoutSender.
    destruct followers; [apply Keeps_ret|].
    apply Keeps_bind; [apply Keeps_deref | intros sender; apply Keeps_ret].
  - intros uris.
    apply Keeps_bind; [apply Keeps_callDeliverTo | intros d].
    destruct d; [apply Keeps_throw | apply Keeps_ret].
Qed.

Lemma Keeps_groupOutbox (groupname : string) (data : Payload.t) :
  Keeps inv (ApGroupService.acceptPostRequest groupname data).
Proof.
  unfold ApGroupService.acceptPostRequest.
  apply Keeps_bind; [apply Keeps_findLocalByName | intros group].
  destruct (bool_decide (Payload.type data = "Accept")).
  - apply Keeps_bind; [apply Keeps_findActivityByUri | intros found].
    apply Keeps_bind; [apply Keeps_deref | intros request].
    apply Keeps_bind; [apply Keeps_saveActivity | intros act].
    apply Keeps_bind; [apply Keeps_callDeliverTo | intros d].
    apply Keeps_bind; [apply Keeps_await | intros _; apply Keeps_ret].
  - destruct (bool_decide (Payload.type data ∈ _)); apply Keeps_throw.
Qed.

Lemma Keeps_handleIncoming (groupname : string) (data : Payload.t) :
  Keeps inv (ApGroupService.handleIncoming groupname data).
Proof.
  unfold ApGroupService.handleIncoming.
  apply Keeps_bind; [apply Keeps_findLocalByName | intros group].
  apply Keeps_bind; [apply Keeps_findActivityByUri | intros found].
  destruct (bool_decide (Payload.type data = "Create")).
  - destruct (truthy _); [|apply Keeps_ret].
    apply Keeps_bind.
    + unfold ApGroupService.stampAudience.
      destruct (Payload.audience data);
        [apply Keeps_ret | apply Keeps_ret | apply Keeps_throw].
    + intros stamped.
      apply Keeps_bind; [apply Keeps_saveActivity | intros saved].
      apply Keeps_bind; [apply Keeps_deliverToFollowers | intros sent].
      apply Keeps_ret.
  - destruct (bool_decide (Payload.type data = "Follow"));
      [|apply Keeps_throw].
    apply Keeps_bind; [apply Keeps_findByUri | intros user].
    apply Keeps_bind; [apply Keeps_saveActivity | intros saved].
    apply Keeps_bind; [apply Keeps_addFollower | intros result].
    destruct result; [apply Keeps_groupOutbox | apply Keeps_ret].
Qed.

End StoreFrames.

Section StoreSteps.
Context {AS : Type} {activityService : ActivityService AS}.

(** What holds of the store once an activity is saved holds after every
    continuation that keeps it, and also when the save fails. *)
Lemma Keeps_after_save {B} (inv : AS → Prop) (a : Activity.t)
    (k : Activity.t → M (World AS) B) (w : World AS) :
  (∀ saved, Keeps inv (k saved)) →
  inv (snd (save (activities w) a)) →
  inv (activities (snd ((saveActivity a ≫= k) w))).
Proof.
  intros Hk Hs. unfold mbind, M_bind, saveActivity.
  destruct (save (activities w) a) as [[saved|e] s]; simpl in *;
    [by apply Hk | done].
Qed.

Lemma pushDestination_listed (group : Group.t) (a : Activity.t) :
  Group.id group
  ∈ Group.id <$> default [] (Activity.destinationGroups
                               (ApGroupService.pushDestination group a)).
Proof.
  unfold ApGroupService.pushDestination.
  destruct (Activity.destinationGroups a) as [l|]; simpl.
  - rewrite fmap_app. apply elem_of_app. right. apply list_elem_of_here.
  - apply list_elem_of_here.
Qed.

End StoreSteps.

(** The activity table: what [save] does to the records of a URI. *)
Section StoredActivities.
Variable uri : string.

Lemma recordsFor_cons (a : Activity.t) (rows : list Activity.t) :
  TableStore.recordsFor uri (a :: rows)
  = if decide (Activity.uri a = Some uri)
    then a :: TableStore.recordsFor uri rows
    else TableStore.recordsFor uri rows.
Proof. unfold TableStore.recordsFor. by rewrite filter_cons. Qed.

Lemma recordsFor_upsert_other (m : Activity.t) (rows : list Activity.t) :
  Activity.uri m ≠ Some uri →
  TableStore.recordsFor uri (TableStore.upsertByUri m rows)
  = TableStore.recordsFor uri rows.
Proof.
  intros Hother. induction rows as [|r rows IH]; simpl.
  - rewrite recordsFor_cons. by destruct (decide (Activity.uri m = Some uri)).
  - destruct (bool_decide (is_Some (Activity.uri m)
                           ∧ Activity.uri r = Activity.uri m)) eqn:E.
    + apply bool_decide_eq_true in E as [_ E].
      rewrite !recordsFor_cons, E.
      by destruct (decide (Activity.uri m = Some uri)).
    + rewrite !recordsFor_cons, IH. done.
Qed.

Lemma recordsFor_upsert_same (m : Activity.t) (rows : list Activity.t) :
  Activity.uri m = Some uri →
  length (TableStore.recordsFor uri (TableStore.upsertByUri m rows))
  = Nat.max 1 (length (TableStore.recordsFor uri rows)).
Proof.
  intros Hsame. induction rows as [|r rows IH]; simpl.
  - rewrite recordsFor_cons. by rewrite decide_True.
  - destruct (decide (Activity.uri r = Some uri)) as [E|E].
    + rewrite bool_decide_eq_true_2
        by (split; [by rewrite Hsame | congruence]).
      rewrite !recordsFor_cons, !decide_True by done. simpl. lia.
    + rewrite bool_decide_eq_false_2 by (intros [_ H]; congruence).
      rewrite !recordsFor_cons, !decide_False by done. exact IH.
Qed.

Lemma elem_of_upsertByUri (m r : Activity.t) (rows : list Activity.t) :
  r ∈ TableStore.upsertByUri m rows → r = m ∨ r ∈ rows.
Proof.
  induction rows as [|a rows IH]; simpl.
  - intros H. apply elem_of_cons in H as [->|H]; [by left | by right].
  - destruct (bool_decide _); intros H; apply elem_of_cons in H as [->|H].
    + by left.
    + right. by apply list_elem_of_further.
    + right. apply list_elem_of_here.
    + destruct (IH H) as [->|Hin]; [by left|].
      right. by apply list_elem_of_further.
Qed.

Lemma upsertByUri_elem (m : Activity.t) (rows : list Activity.t) :
  m ∈ TableStore.upsertByUri m rows.
Proof.
  induction rows as [|a rows IH]; simpl; [apply list_elem_of_here|].
  destruct (bool_decide _);
    [apply list_elem_of_here | by apply list_elem_of_further].
Qed.

Lemma recordsFor_upsert_elem (m a : Activity.t) (rows : list Activity.t) :
  a ∈ TableStore.recordsFor uri (TableStore.upsertByUri m rows) →
  a = m ∨ a ∈ TableStore.recordsFor uri rows.
Proof.
  unfold TableStore.recordsFor. intros H.
  apply list_elem_of_filter in H as [Huri H].
  apply elem_of_upsertByUri in H as [->|H]; [by left|].
  right. by apply list_elem_of_filter.
Qed.

(** The lookup by URI finds the one record there is for the URI. *)
Lemma findByUri_record (a : Activity.t) (rows : list Activity.t) :
  (length (TableStore.recordsFor uri rows) ≤ 1)%nat →
  a ∈ TableStore.recordsFor uri rows →
  TableStore.findByUri rows (JStr uri) = Some a.
Proof.
  unfold TableStore.findByUri.
  induction rows as [|r rows IH]; simpl.
  - intros _ H. by apply elem_of_nil in H.
  - rewrite recordsFor_cons.
    destruct (decide (Activity.uri r = Some uri)) as [E|E].
    + rewrite (bool_decide_eq_true_2 _ E). simpl. intros Hlen Hin.
      destruct (TableStore.recordsFor uri rows); [|simpl in Hlen; lia].
      apply elem_of_cons in Hin as [->|Hin]; [done|].
      by apply elem_of_nil in Hin.
    + rewrite (bool_decide_eq_false_2 _ E). exact IH.
Qed.

Lemma findByUri_uri (a : Activity.t) (rows : list Activity.t) (u : JValue) :
  TableStore.findByUri rows u = Some a → u = toJValue (Activity.uri a).
Proof.
  unfold TableStore.findByUri. destruct u as [|s|r]; try done.
  intros Hfind. apply List.find_some in Hfind as [_ Hu].
  apply bool_decide_eq_true in Hu. by rewrite Hu.
Qed.

Lemma mergeDestinations_NoDup (old new : option (list Group.t)) :
  NoDup (Group.id <$> default [] (TableStore.mergeDestinations old new)).
Proof.
  unfold TableStore.mergeDestinations.
  destruct old, new; simpl; try apply relation_NoDup. apply NoDup_nil_2.
Qed.

Lemma mergeDestinations_keys (old new : option (list Group.t)) (k : nat) :
  k ∈ Group.id <$> default [] (TableStore.mergeDestinations old new)
  ↔ k ∈ Group.id <$> default [] old ∨ k ∈ Group.id <$> default [] new.
Proof.
  unfold TableStore.mergeDestinations.
  destruct old as [o|], new as [n|]; unfold default, from_option, id;
    rewrite ?relation_keys, ?fmap_app, ?elem_of_app, ?fmap_nil, ?elem_of_nil;
    tauto.
Qed.

Lemma save_written (rows : list Activity.t) (a : Activity.t) :
  TableStore.save rows a
  = (Ok (TableStore.written rows a), TableStore.upsertByUri (TableStore.written rows a) rows).
Proof. reflexivity. Qed.

Lemma written_uri (rows : list Activity.t) (a : Activity.t) :
  Activity.uri (TableStore.written rows a) = TableStore.identify a.
Proof. reflexivity. Qed.

Lemma written_destinations (rows : list Activity.t) (a : Activity.t) :
  Activity.destinationGroups (TableStore.written rows a)
  = TableStore.mergeDestinations
      (TableStore.findByUri rows (toJValue (TableStore.identify a))
       ≫= Activity.destinationGroups)
      (Activity.destinationGroups a).
Proof. reflexivity. Qed.

Lemma written_NoDup (rows : list Activity.t) (a : Activity.t) :
  NoDup (Group.id <$> default [] (Activity.destinationGroups (TableStore.written rows a))).
Proof. apply mergeDestinations_NoDup. Qed.

(** [save] keeps the table well formed. *)
Lemma save_wellFormed (rows : list Activity.t) (a : Activity.t) :
  TableStore.wellFormed uri rows →
  TableStore.wellFormed uri (snd (TableStore.save rows a)).
Proof.
  intros [Hone Hsets]. rewrite save_written. simpl.
  destruct (decide (TableStore.identify a = Some uri)) as [E|E].
  - split.
    + rewrite recordsFor_upsert_same by (by rewrite written_uri). lia.
    + intros r Hr. apply recordsFor_upsert_elem in Hr as [->|Hr];
        [apply written_NoDup | by apply Hsets].
  - split.
    + by rewrite recordsFor_upsert_other by (by rewrite written_uri).
    + intros r Hr. rewrite recordsFor_upsert_other in Hr
        by (by rewrite written_uri). by apply Hsets.
Qed.

(** [save] keeps a group that the record for the URI lists. *)
Lemma save_listed (group : Group.t) (rows : list Activity.t) (a : Activity.t) :
  TableStore.wellFormed uri rows →
  TableStore.listed uri group rows →
  TableStore.listed uri group (snd (TableStore.save rows a)).
Proof.
  intros [Hone _] (r & Hr & Hlisted). rewrite save_written. simpl.
  destruct (decide (TableStore.identify a = Some uri)) as [E|E].
  - exists (TableStore.written rows a). split.
    + unfold TableStore.recordsFor. apply list_elem_of_filter.
      split; [by rewrite written_uri | apply upsertByUri_elem].
    + rewrite written_destinations, E.
      change (toJValue (Some uri)) with (JStr uri).
      rewrite (findByUri_record r rows Hone Hr).
      apply mergeDestinations_keys. by left.
  - exists r. split; [|done].
    by rewrite recordsFor_upsert_other by (by rewrite written_uri).
Qed.

(** [save] of an entity for the URI that lists a group leaves a record
    for the URI that lists it. *)
Lemma save_lists (group : Group.t) (rows : list Activity.t) (a : Activity.t) :
  TableStore.identify a = Some uri →
  Group.id group ∈ Group.id <$> default [] (Activity.destinationGroups a) →
  TableStore.listed uri group (snd (TableStore.save rows a)).
Proof.
  intros E Hlisted. rewrite save_written. simpl.
  exists (TableStore.written rows a). split.
  - unfold TableStore.recordsFor. apply list_elem_of_filter.
    split; [by rewrite written_uri | apply upsertByUri_elem].
  - rewrite written_destinations. apply mergeDestinations_keys. by right.
Qed.

(** In a well-formed table whose record for the URI lists the group there
    is exactly one record for the URI, and it lists the group once. *)
Lemma listed_once (group : Group.t) (rows : list Activity.t) :
  TableStore.wellFormed uri rows →
  TableStore.listed uri group rows →
  ∃ a, TableStore.recordsFor uri rows = [a]
       ∧ TableStore.destinationCount group a = 1.
Proof.
  intros [Hone Hsets] (a & Ha & Hlisted).
  assert (Hrecords : TableStore.recordsFor uri rows = [a]).
  { destruct (TableStore.recordsFor uri rows) as [|r [|r' t]];
      [by apply elem_of_nil in Ha | | simpl in Hone; lia].
    apply elem_of_cons in Ha as [->|Ha]; [done | by apply elem_of_nil in Ha]. }
  exists a. split; [done|].
  pose proof (one_row_per_key Group.id _ (Group.id group) (Hsets a Ha)) as Hle.
  unfold TableStore.destinationCount in *.
  apply list_elem_of_fmap in Hlisted as (g & Hg & Hin).
  destruct (filter _ _) as [|g' t] eqn:Ef; [|simpl in *; lia].
  assert (Hgin : g ∈ filter (λ g0, Group.id g0 = Group.id group)
                   (default [] (Activity.destinationGroups a)))
    by (by apply list_elem_of_filter).
  rewrite Ef in Hgin. by apply elem_of_nil in Hgin.
Qed.

End StoredActivities.

Section InboxStore.
Variable deliver : Activity.t → JValue → Settlement.

(** C1: over the activity table, handling the same payload twice for the
    same group leaves at most one record for the URI of the payload, and
    no group is listed twice among the destinations of that record.
    For a [Create] that the table knows, which [handleIncoming] pushes
    the group for twice before each [save], there is exactly one record
    afterwards, and it lists the receiving group once. *)
Theorem handleIncoming_twice_one_record (groupname : string)
    (data : Payload.t) (uri : string) (w : World (list Activity.t)) :
  let handle :=
    ApGroupService.handleIncoming
      (activityService := TableStore.service deliver) groupname data in
  let w2 := snd (handle (snd (handle w))) in
  Payload.id data = JStr uri →
  TableStore.wellFormed uri (activities w) →
  (length (TableStore.recordsFor uri (activities w2)) ≤ 1)%nat
  ∧ (∀ a group, a ∈ TableStore.recordsFor uri (activities w2) →
                (TableStore.destinationCount group a ≤ 1)%nat)
  ∧ (∀ group known,
       Payload.type data = "Create" →
       fst (GroupService.findLocalByName groupname w) = Ok group →
       TableStore.findByUri (activities w) (JStr uri) = Some known →
       uri ≠ "" →
       (∀ repr, Payload.audience data ≠ AudOther repr) →
       ∃ a, TableStore.recordsFor uri (activities w2) = [a]
            ∧ TableStore.destinationCount group a = 1).
Proof.
  intros handle w2 Hid Hwf.
  assert (Hkeeps : ∀ inv : list Activity.t → Prop,
            (∀ s a, inv s → inv (snd (TableStore.save s a))) →
            Keeps inv handle).
  { intros inv Hsave. subst handle.
    by apply (Keeps_handleIncoming
                (activityService := TableStore.service deliver)). }
  assert (Hwf2 : TableStore.wellFormed uri (activities w2)).
  { subst w2. apply (Hkeeps _ (save_wellFormed uri)).
    by apply (Hkeeps _ (save_wellFormed uri)). }
  split; [apply Hwf2|]. split.
  - intros a group Ha. unfold TableStore.destinationCount.
    apply one_row_per_key. by apply Hwf2.
  - intros group known Htype Hgroup Hknown Hne Haud.
    set (inv := λ rows, TableStore.wellFormed uri rows
                        ∧ TableStore.listed uri group rows).
    assert (Hinv : ∀ s a, inv s → inv (snd (TableStore.save s a))).
    { intros s a [Hs Hl]. split;
        [by apply save_wellFormed | by apply save_listed]. }
    assert (Huri : Activity.uri known = Some uri).
    { apply findByUri_uri in Hknown. destruct (Activity.uri known); [|done].
      by injection Hknown as ->. }
    assert (Hw1 : inv (activities (snd (handle w)))).
    { subst handle.
      rewrite (handleIncoming_Create_run
                 (activityService := TableStore.service deliver)
                 groupname data group known w); try done.
      - apply (Keeps_after_save (activityService := TableStore.service deliver)).
        + intros saved. apply Keeps_bind; [|intros sent; apply Keeps_ret].
          apply Keeps_deliverToFollowers.
        + split; [by apply save_wellFormed|]. apply save_lists.
          * unfold TableStore.identify, ApGroupService.relayedEntity. simpl.
            by rewrite !pushDestination_uri, Huri.
          * unfold ApGroupService.relayedEntity. simpl.
            apply pushDestination_listed.
      - by rewrite Hid.
      - rewrite Huri. simpl. by apply bool_decide_eq_true_2. }
    destruct (Hkeeps inv Hinv _ Hw1) as [Hwf' Hl'].
    by apply (listed_once uri group).
Qed.

End InboxStore.

Section StoreSample.
Import Sample.

(** The known [Create] of [U2] arrives twice at the group. *)
Lemma handleIncoming_twice_one_record_witness :
  let handle :=
    ApGroupService.handleIncoming (activityService := svc)
      "rocq" createPayload in
  let w2 := snd (handle (snd (handle followed))) in
  (length (TableStore.recordsFor noteUri (activities w2)) ≤ 1)%nat
  ∧ ∃ a, TableStore.recordsFor noteUri (activities w2) = [a]
         ∧ TableStore.destinationCount (G (Some [U1; U2; U3])) a = 1.
Proof.
  destruct (handleIncoming_twice_one_record allDelivered
              "rocq" createPayload noteUri followed)
    as (Hone & _ & Hexact).
  - reflexivity.
  - split; [vm_compute; lia|]. intros a Ha.
    unfold TableStore.recordsFor in Ha.
    apply list_elem_of_filter in Ha as [_ Ha]. simpl in Ha.
    apply elem_of_cons in Ha as [->|Ha]; [apply NoDup_nil_2|].
    by apply elem_of_nil in Ha.
  - split; [exact Hone|].
    apply (Hexact (G (Some [U1; U2; U3])) knownCreate).
    + reflexivity.
    + reflexivity.
    + reflexivity.
    + apply (bool_decide_unpack _). vm_compute. exact I.
    + discriminate.
Defined.

(** The table after the two deliveries: the one record, with the group
    as its one destination. *)
Example known_Create_twice_stored_once :
  let handle :=
    ApGroupService.handleIncoming (activityService := svc)
      "rocq" createPayload in
  (λ a, (Activity.uri a, Activity.destinationGroups a))
    <$> activities (snd (handle (snd (handle followed))))
  = [(Some noteUri, Some [G (Some [U1; U2; U3])])].
Proof. vm_compute. reflexivity. Qed.

End StoreSample.

(** ** Likes (C10) *)

Section Likes.
Context {AS : Type} {activityService : ActivityService AS}
  {apPostService : ApPostService AS}.

(** One run of [addLike]: the post is pushed onto the loaded array and the
    user is saved; nothing is tested.  The answer is the object with the
    array as pushed; the row keeps the relation. *)
Lemma addLike_run (user row : User.t) (post : Post.t) (w : World AS) :
  findById User.id (User.id user) (users w) = Some row →
  let liked := default [] (User.liked row) in
  UserService.addLike user post w
  = (Ok (User.setLiked (Some (liked ++ [post])) row),
     setUsers (upsert User.id
                 (User.setLiked (Some (relation Post.id (liked ++ [post]))) row)
                 (users w)) w).
Proof.
  intros Hrow liked. subst liked.
  unfold UserService.addLike, UserService.getLikes, UserService.save.
  unfold mbind, M_bind, mret, M_ret, gets, modify, deref. simpl.
  rewrite Hrow. simpl. by destruct row.
Qed.

Lemma findLocalByName_find (username : string) (user : User.t) (w : World AS) :
  fst (UserService.findLocalByName username w) = Ok user →
  List.find (λ u, bool_decide (User.name u = username)
                  && bool_decide (User.server u = local w)) (users w)
  = Some user.
Proof.
  unfold UserService.findLocalByName.
  destruct (List.find _ (users w)) as [u|]; simpl; [|discriminate].
  by intros [= ->].
Qed.

Lemma find_findLocalByName (username : string) (user : User.t) (w : World AS) :
  List.find (λ u, bool_decide (User.name u = username)
                  && bool_decide (User.server u = local w)) (users w)
  = Some user →
  UserService.findLocalByName username w = (Ok user, w).
Proof. intros Hfind. unfold UserService.findLocalByName. by rewrite Hfind. Qed.

(** The run of the [Like] branch of the user outbox. *)
Lemma like_run (username : string) (data : Payload.t) (user : User.t)
    (post : Post.t) (w : World AS) :
  Payload.content data = JNull →
  Payload.type data = "Like" →
  UserService.findLocalByName username w = (Ok user, w) →
  findById User.id (User.id user) (users w) = Some user →
  getPostEntityByUri (Payload.object data) w = Ok post →
  let liked := default [] (User.liked user) in
  let user' := User.setLiked (Some (liked ++ [post])) user in
  let row' := User.setLiked (Some (relation Post.id (liked ++ [post]))) user in
  let w' := setUsers (upsert User.id row' (users w)) w in
  ApUserService.acceptPostRequest username data w
  = match save (activities w) (ApUserService.outboxEntity user' post data) with
    | (Ok saved, s) =>
        (Ok (RPayload (Activity.activityObject saved)), setActivities s w')
    | (Err e, s) => (Err e, setActivities s w')
    end.
Proof.
  intros Hcontent Htype Huser Hrow Hpost liked user' row' w'.
  unfold ApUserService.acceptPostRequest.
  unfold mbind at 1. unfold M_bind at 1. rewrite Huser.
  rewrite Hcontent. simpl. rewrite Htype. simpl.
  unfold mbind at 1. unfold M_bind at 1. rewrite Hpost.
  unfold ApUserService.likePost.
  unfold mbind at 1. unfold M_bind at 1.
  rewrite (addLike_run user user post w Hrow).
  fold liked user' row'. unfold mbind, M_bind, mret, M_ret, saveActivity. simpl.
  by destruct (save (activities w) (ApUserService.outboxEntity user' post data))
    as [[saved|e] s].
Qed.



End Likes.

Section LikeSample.
Import Sample.



End LikeSample.

(** * Further properties of the services *)

(** ** [GroupService.addFollower] *)

Section AddFollower.
Context {AS : Type}.

(** [addFollower] on a stored group saves the user as a follower and
    answers [true], whether or not the user was a follower before.
    Afterwards the user is among the stored followers, which are those of
    before and the user, one for each user id; when the followers were
    stored one per user id, every follower of another id is still
    stored.  The rows of other groups are the same. *)
Theorem addFollower_records (group fullGroup : Group.t) (user : User.t)
    (w : World AS) :
  findById Group.id (Group.id group) (groups w) = Some fullGroup →
  let before := default [] (Group.followingUsers fullGroup) in
  let out := GroupService.addFollower group user w in
  fst out = Ok true
  ∧ (∃ stored,
       findById Group.id (Group.id group) (groups (snd out)) = Some stored
       ∧ let after := default [] (Group.followingUsers stored) in
         user ∈ after
         ∧ NoDup (User.id <$> after)
         ∧ (∀ k, k ∈ User.id <$> after
                 ↔ k = User.id user ∨ k ∈ User.id <$> before)
         ∧ (NoDup (User.id <$> before) →
            ∀ u, u ∈ before → User.id u ≠ User.id user → u ∈ after))
  ∧ (∀ k, k ≠ Group.id group →
       findById Group.id k (groups (snd out)) = findById Group.id k (groups w)).
Proof.
  intros Hfound before out. subst out.
  rewrite (addFollower_run group fullGroup user w Hfound). fold before.
  pose proof (findById_key _ _ _ _ Hfound) as Hkey. simpl.
  split; [done|]. split.
  - eexists. split.
    + rewrite <- Hkey.
      apply (findById_upsert Group.id
               (Group.setFollowingUsers
                  (Some (relation User.id (before ++ [user]))) fullGroup)).
    + simpl. split; [|split; [|split]].
      * apply relation_last.
      * apply relation_NoDup.
      * intros k. rewrite relation_keys, fmap_app, elem_of_app.
        rewrite fmap_cons, elem_of_cons, fmap_nil, elem_of_nil. tauto.
      * intros Hnd u Hu Hne. rewrite relation_stored by done.
        by apply elem_of_upsert_ne.
  - intros k Hk. apply findById_upsert_ne. simpl. congruence.
Qed.

(** [addFollower] on a group that is not stored dereferences [undefined]:
    a [TypeError], and no row is written. *)
Theorem addFollower_missing_group (group : Group.t) (user : User.t) (w : World AS) :
  findById Group.id (Group.id group) (groups w) = None →
  GroupService.addFollower group user w = (Err TypeError, w).
Proof.
  intros Hnone.
  unfold GroupService.addFollower, GroupService.getFollowers.
  unfold mbind, M_bind, gets, deref, throw. simpl. by rewrite Hnone.
Qed.

(** [addFollower] twice: the second call answers [true] again, and
    leaves the state as the first call left it. *)
Theorem addFollower_twice (group fullGroup : Group.t) (user : User.t)
    (w : World AS) :
  findById Group.id (Group.id group) (groups w) = Some fullGroup →
  let w1 := snd (GroupService.addFollower group user w) in
  GroupService.addFollower group user w1 = (Ok true, w1).
Proof.
  intros Hfound w1. subst w1.
  rewrite (addFollower_run group fullGroup user w Hfound).
  pose proof (findById_key _ _ _ _ Hfound) as Hkey. simpl.
  set (followers := relation User.id
                      (default [] (Group.followingUsers fullGroup) ++ [user])).
  set (fullGroup' := Group.setFollowingUsers (Some followers) fullGroup).
  rewrite (addFollower_run group fullGroup' user).
  - simpl.
    assert (Hagain : relation User.id (followers ++ [user]) = followers).
    { rewrite relation_stored by apply relation_NoDup.
      subst followers. rewrite relation_snoc. apply upsert_idem. }
    rewrite Hagain. fold fullGroup'. unfold setGroups. simpl.
    by rewrite upsert_idem.
  - simpl. rewrite <- Hkey. apply (findById_upsert Group.id fullGroup').
Qed.

End AddFollower.

(** ** More on the fan-out *)

Lemma toJValue_inj (a b : option string) : toJValue a = toJValue b → a = b.
Proof. destruct a, b; simpl; congruence. Qed.

Section FanOutMore.
Context {AS : Type} {activityService : ActivityService AS}.

(** The source user of the activity is read once per follower: with no
    follower the fan-out calls the delivery capability with no target and
    answers as usual even for an activity without source user; with a
    follower such an activity ends in a [TypeError] before any call. *)
Theorem deliverToFollowers_without_source (activity : Activity.t)
    (group withFollowers : Group.t) (w : World AS) :
  Activity.sourceUser activity = None →
  findById Group.id (Group.id group) (groups w) = Some withFollowers →
  (Group.followingUsers withFollowers = Some [] →
   ApGroupService.deliverToFollowers activity group w
   = (match deliverTo activity [] with
      | Throws e => Err (InternalServerErrorException e)
      | Promised _ => Ok activity
      end, logDelivery activity [] w))
  ∧ (∀ f fs, Group.followingUsers withFollowers = Some (f :: fs) →
     ApGroupService.deliverToFollowers activity group w = (Err TypeError, w)).
Proof.
  intros Hsource Hfound.
  unfold ApGroupService.deliverToFollowers, GroupService.getFollowers,
    ApGroupService.urisWithoutSender, callDeliverTo.
  unfold mbind, M_bind, mret, M_ret, gets, deref, throw. simpl.
  rewrite Hfound. simpl. split.
  - intros ->. simpl. by destruct (deliverTo activity []).
  - intros f fs ->. simpl. by rewrite Hsource.
Qed.

(** The fan-out never echoes: the one call of the delivery capability
    names the URI of every follower whose URI is not the sender's, names
    nothing but URIs of followers, and never names the sender's URI. *)
Theorem deliverToFollowers_never_echoes (activity : Activity.t)
    (group withFollowers : Group.t) (followers : list User.t)
    (sender : User.t) (w : World AS) :
  findById Group.id (Group.id group) (groups w) = Some withFollowers →
  Group.followingUsers withFollowers = Some followers →
  Activity.sourceUser activity = Some sender →
  ∃ targets,
    delivered (snd (ApGroupService.deliverToFollowers activity group w))
    = delivered w ++ [(activity, targets)]
    ∧ (toJValue (User.uri sender) ∉ targets)
    ∧ (∀ f, f ∈ followers → User.uri f ≠ User.uri sender →
            toJValue (User.uri f) ∈ targets)
    ∧ (∀ t, t ∈ targets → ∃ f, f ∈ followers ∧ t = toJValue (User.uri f)).
Proof.
  intros Hfound Hfollowers Hsender.
  rewrite (deliverToFollowers_run _ _ _ _ _ _ Hfound Hfollowers Hsender).
  exists (fanOutTargets sender followers). unfold fanOutTargets.
  split; [done|]. split; [|split].
  - intros H. apply list_elem_of_fmap in H as (u & Hu & Hin).
    apply toJValue_inj in Hu.
    apply list_elem_of_fmap in Hin as (f & -> & Hf).
    apply list_elem_of_filter in Hf as [Hne _]. by apply Hne.
  - intros f Hf Hne. apply list_elem_of_fmap. eexists. split; [done|].
    apply list_elem_of_fmap. exists f. split; [done|].
    by apply list_elem_of_filter.
  - intros t H. apply list_elem_of_fmap in H as (u & -> & Hin).
    apply list_elem_of_fmap in Hin as (f & -> & Hf).
    apply list_elem_of_filter in Hf as [_ Hf]. by exists f.
Qed.

(** A user who has been added as a follower is a target of the next
    fan-out of an activity of someone else. *)
Theorem new_follower_is_relayed_to (activity : Activity.t)
    (group fullGroup : Group.t) (user sender : User.t) (w : World AS) :
  findById Group.id (Group.id group) (groups w) = Some fullGroup →
  Activity.sourceUser activity = Some sender →
  User.uri user ≠ User.uri sender →
  let w1 := snd (GroupService.addFollower group user w) in
  ∃ targets,
    delivered (snd (ApGroupService.deliverToFollowers activity group w1))
    = delivered w1 ++ [(activity, targets)]
    ∧ toJValue (User.uri user) ∈ targets.
Proof.
  intros Hfound Hsender Hne w1.
  assert (∃ stored followers,
            findById Group.id (Group.id group) (groups w1) = Some stored
            ∧ Group.followingUsers stored = Some followers
            ∧ user ∈ followers) as (stored & followers & Hstored & Hf & Hin).
  { subst w1. rewrite (addFollower_run group fullGroup user w Hfound).
    pose proof (findById_key _ _ _ _ Hfound) as Hkey. simpl.
    eexists _, _. split; [|split].
    - rewrite <- Hkey.
      apply (findById_upsert Group.id (Group.setFollowingUsers _ fullGroup)).
    - reflexivity.
    - apply relation_last. }
  rewrite (deliverToFollowers_run _ _ _ _ _ _ Hstored Hf Hsender).
  eexists. split; [done|]. unfold fanOutTargets.
  apply list_elem_of_fmap. eexists. split; [done|].
  apply list_elem_of_fmap. exists user. split; [done|].
  by apply list_elem_of_filter.
Qed.

End FanOutMore.

(** ** More on the group outbox and inbox *)

Section GroupDispatchMore.
Context {AS : Type} {activityService : ActivityService AS}.

Lemma groupFind_none (groupname : string) (w : World AS) :
  (∀ g, g ∈ groups w →
        ¬ (Group.name g = groupname ∧ Group.server g = local w)) →
  GroupService.findLocalByName groupname w
  = (Err (Error ("Group " +:+ groupname +:+ " does not exist on this server")), w).
Proof.
  intros Hnone. unfold GroupService.findLocalByName.
  destruct (List.find _ (groups w)) as [g|] eqn:Hfind; [|done].
  apply List.find_some in Hfind as [Hin HP].
  apply andb_prop in HP as [Hn Hs].
  apply bool_decide_eq_true in Hn. apply bool_decide_eq_true in Hs.
  destruct (Hnone g); [by apply list_elem_of_In | done].
Qed.

(** An [Accept] that refers to an activity the server does not know ends
    in a [TypeError]; nothing is saved and nothing is delivered. *)
Theorem groupOutbox_Accept_unknown_request (groupname : string)
    (data : Payload.t) (group : Group.t) (w : World AS) :
  Payload.type data = "Accept" →
  fst (GroupService.findLocalByName groupname w) = Ok group →
  findByUri (activities w) (Payload.object data) = None →
  ApGroupService.acceptPostRequest groupname data w = (Err TypeError, w).
Proof.
  intros Htype Hgroup Hnone. apply groupFind_found in Hgroup.
  unfold ApGroupService.acceptPostRequest.
  unfold mbind at 1. unfold M_bind at 1. rewrite Hgroup.
  rewrite Htype. simpl.
  unfold findActivityByUri, mbind, M_bind, gets, deref, throw. simpl.
  by rewrite Hnone.
Qed.

(** An [Accept] is saved first and then delivered to its one target.
    The delivery is awaited: when it fails the call is rejected with that
    very error, when it succeeds the payload of the saved activity is the
    answer; either way the saved [Accept] stays and the one delivery is
    on record. *)
Theorem groupOutbox_Accept_delivery (groupname : string) (data : Payload.t)
    (group : Group.t) (request act : Activity.t) (s : AS) (w : World AS) :
  Payload.type data = "Accept" →
  fst (GroupService.findLocalByName groupname w) = Ok group →
  findByUri (activities w) (Payload.object data) = Some request →
  save (activities w)
       (ApGroupService.acceptEntity group (Activity.sourceUser request) data)
  = (Ok act, s) →
  let out := ApGroupService.acceptPostRequest groupname data w in
  snd out = logDelivery act [Payload.target data] (setActivities s w)
  ∧ (deliverTo act [Payload.target data] = Promised Fulfilled →
     fst out = Ok (RPayload (Activity.activityObject act)))
  ∧ (∀ e, deliverTo act [Payload.target data] = Promised (Rejected e) →
     fst out = Err e).
Proof.
  intros Htype Hgroup Hrequest Hsave out. subst out.
  rewrite (groupOutbox_Accept_run _ _ _ _ _ Htype Hgroup Hrequest), Hsave.
  simpl. split; [done|]. split.
  - by intros ->.
  - by intros e ->.
Qed.

(** A [Create] for an activity without a known URI is dropped: the answer
    is [undefined], and nothing is saved or relayed. *)
Theorem handleIncoming_unknown_Create_dropped (groupname : string)
    (data : Payload.t) (group : Group.t) (w : World AS) :
  Payload.type data = "Create" →
  fst (GroupService.findLocalByName groupname w) = Ok group →
  truthy (Activity.uri (default (create data)
                          (findByUri (activities w) (Payload.id data)))) = false →
  ApGroupService.handleIncoming groupname data w = (Ok RUndefined, w).
Proof.
  intros Htype Hgroup Huri. apply groupFind_found in Hgroup.
  unfold ApGroupService.handleIncoming.
  unfold mbind at 1. unfold M_bind at 1. rewrite Hgroup.
  unfold findActivityByUri, gets. unfold mbind at 1. unfold M_bind at 1.
  rewrite Htype. simpl. by rewrite pushDestination_uri, Huri.
Qed.

(** A known [Create] whose [audience] is neither empty nor an array is
    refused with a [BadRequest] without message, before anything is saved
    or relayed. *)
Theorem handleIncoming_Create_bad_audience (groupname : string)
    (data : Payload.t) (group : Group.t) (known : Activity.t) (repr : string)
    (w : World AS) :
  Payload.type data = "Create" →
  fst (GroupService.findLocalByName groupname w) = Ok group →
  findByUri (activities w) (Payload.id data) = Some known →
  truthy (Activity.uri known) = true →
  Payload.audience data = AudOther repr →
  ApGroupService.handleIncoming groupname data w
  = (Err (BadRequestException None), w).
Proof.
  intros Htype Hgroup Hknown Huri Haud. apply groupFind_found in Hgroup.
  unfold ApGroupService.handleIncoming.
  unfold mbind at 1. unfold M_bind at 1. rewrite Hgroup.
  unfold findActivityByUri, gets. unfold mbind at 1. unfold M_bind at 1.
  rewrite Htype, Hknown. simpl. rewrite pushDestination_uri, Huri.
  unfold ApGroupService.stampAudience. rewrite Haud.
  reflexivity.
Qed.

(** The relay of a known [Create]: the activity is saved first, with the
    group's followers collection added to its audience.  If the save
    fails nothing is delivered.  Otherwise the saved activity is fanned
    out, and whatever the fan-out comes to, also an [InternalServerError]
    for an error thrown by the delivery call, the save stays. *)
Theorem handleIncoming_relay (groupname : string) (data : Payload.t)
    (group : Group.t) (known : Activity.t) (w : World AS) :
  Payload.type data = "Create" →
  fst (GroupService.findLocalByName groupname w) = Ok group →
  findByUri (activities w) (Payload.id data) = Some known →
  truthy (Activity.uri known) = true →
  (∀ repr, Payload.audience data ≠ AudOther repr) →
  let entity :=
    ApGroupService.relayedEntity group
      (ApGroupService.pushDestination group known) (stamped group data) in
  let out := ApGroupService.handleIncoming groupname data w in
  Activity.activityObject entity = stamped group data
  ∧ (∀ e s, save (activities w) entity = (Err e, s) →
       out = (Err e, setActivities s w))
  ∧ (∀ saved s withFollowers followers sender,
       save (activities w) entity = (Ok saved, s) →
       findById Group.id (Group.id group) (groups w) = Some withFollowers →
       Group.followingUsers withFollowers = Some followers →
       Activity.sourceUser saved = Some sender →
       out = (match deliverTo saved (fanOutTargets sender followers) with
              | Throws e => Err (InternalServerErrorException e)
              | Promised _ => Ok (RActivity saved)
              end,
              logDelivery saved (fanOutTargets sender followers)
                          (setActivities s w))).
Proof.
  intros Htype Hgroup Hknown Huri Haud entity out.
  apply groupFind_found in Hgroup.
  assert (Hout : out = (saved ← saveActivity entity;
                        sent ← ApGroupService.deliverToFollowers saved group;
                        mret (RActivity sent)) w).
  { subst out entity. unfold ApGroupService.handleIncoming.
    unfold mbind at 1. unfold M_bind at 1. rewrite Hgroup.
    unfold findActivityByUri, gets. unfold mbind at 1. unfold M_bind at 1.
    rewrite Htype, Hknown. simpl. rewrite pushDestination_uri, Huri.
    unfold ApGroupService.stampAudience, stamped.
    destruct (Payload.audience data) as [|items|repr] eqn:Eaud;
      [reflexivity | reflexivity | by destruct (Haud repr)]. }
  split; [done|]. rewrite Hout. clear Hout.
  unfold saveActivity, mbind, M_bind, mret, M_ret. split.
  - intros e s ->. reflexivity.
  - intros saved s withFollowers followers sender -> Hfound Hfollowers Hsender.
    assert (Hfound' : findById Group.id (Group.id group)
                        (groups (setActivities s w)) = Some withFollowers)
      by exact Hfound.
    rewrite (deliverToFollowers_run _ _ _ _ _ _ Hfound' Hfollowers Hsender).
    by destruct (deliverTo saved (fanOutTargets sender followers)).
Qed.

(** The owner is looked up before the payload is looked at: a post to the
    inbox or outbox of a group that is not a local group is rejected with
    an error that names the group, whatever the payload is, and nothing
    changes. *)
Theorem group_dispatch_unknown_group (groupname : string) (data : Payload.t)
    (w : World AS) :
  (∀ g, g ∈ groups w →
        ¬ (Group.name g = groupname ∧ Group.server g = local w)) →
  let e := Error ("Group " +:+ groupname +:+ " does not exist on this server") in
  ApGroupService.handleIncoming groupname data w = (Err e, w)
  ∧ ApGroupService.acceptPostRequest groupname data w = (Err e, w)
  ∧ ApGroupService.getLocalGroup groupname w = (Err e, w).
Proof.
  intros Hnone e. apply groupFind_none in Hnone. split; [|split].
  - unfold ApGroupService.handleIncoming.
    unfold mbind at 1. unfold M_bind at 1. by rewrite Hnone.
  - unfold ApGroupService.acceptPostRequest.
    unfold mbind at 1. unfold M_bind at 1. by rewrite Hnone.
  - unfold ApGroupService.getLocalGroup, tryCatch. by rewrite Hnone.
Qed.

End GroupDispatchMore.

(** ** The first Follow and its retry *)

Section FollowMore.
Context {AS : Type} {activityService : ActivityService AS}.

(** A Follow, of whatever user: once the Follow activity is saved the
    user is saved as a follower of the group, and the answer is that of
    the dispatch of the synthesized Accept through the group's outbox.
    The Accept can fail; the follower stays.  If the Follow cannot be
    saved, the user is not added.  The first Follow of a user appends the
    user to the followers, when these are stored one per user id. *)
Theorem first_follow_records (groupname : string) (data : Payload.t)
    (group fullGroup : Group.t) (user : User.t) (w : World AS) :
  Payload.type data = "Follow" →
  fst (GroupService.findLocalByName groupname w) = Ok group →
  fst (UserService.findByUri (Payload.actor data) w) = Ok user →
  findById Group.id (Group.id group) (groups w) = Some fullGroup →
  let before := default [] (Group.followingUsers fullGroup) in
  let followers := relation User.id (before ++ [user]) in
  let out := ApGroupService.handleIncoming groupname data w in
  let joined :=
    upsert Group.id (Group.setFollowingUsers (Some followers) fullGroup)
           (groups w) in
  (∀ saved s,
     save (activities w) (followEntity group data (activities w)) = (Ok saved, s) →
     out = ApGroupService.acceptPostRequest (Group.name group)
             (createAcceptActivity (Group.uri group) (Payload.id data)
                                   (User.uri user))
             (setGroups joined (setActivities s w))
     ∧ groups (snd out) = joined)
  ∧ (∀ e s,
       save (activities w) (followEntity group data (activities w)) = (Err e, s) →
       out = (Err e, setActivities s w) ∧ groups (snd out) = groups w)
  ∧ user ∈ followers
  ∧ (NoDup (User.id <$> before) → (User.id user ∉ User.id <$> before) →
     followers = before ++ [user]).
Proof.
  intros Htype Hgroup Huser Hfound before followers out joined. subst out.
  rewrite (handleIncoming_Follow_run _ _ _ _ _ _ Htype Hgroup Huser Hfound).
  fold before followers joined.
  split; [|split; [|split]].
  - intros saved s ->. split; [done|].
    match goal with
    | |- groups (snd (ApGroupService.acceptPostRequest ?n ?d ?w0)) = _ =>
        destruct (groupOutbox_frame n d w0) as (s' & d' & ->)
    end.
    reflexivity.
  - by intros e s ->.
  - apply relation_last.
  - intros Hnd Hnew. by apply relation_new.
Qed.

(** A Follow sent again is accepted again, whatever became of the first
    one: with a store that saves, after the first handling the user is a
    stored follower of the group, and the second handling of the same
    Follow is answered by another dispatch of the synthesized Accept, not
    with [false]; it leaves the group table as the first handling left
    it. *)
Theorem follow_retry_accepted_again (groupname : string) (data : Payload.t)
    (group : Group.t) (user : User.t) (w : World AS) :
  Payload.type data = "Follow" →
  NoDup (Group.id <$> groups w) →
  fst (GroupService.findLocalByName groupname w) = Ok group →
  fst (UserService.findByUri (Payload.actor data) w) = Ok user →
  (∀ st a, ∃ saved s, save st a = (Ok saved, s)) →
  let w1 := snd (ApGroupService.handleIncoming groupname data w) in
  let out := ApGroupService.handleIncoming groupname data w1 in
  (∃ group1 s,
     fst (GroupService.findLocalByName groupname w1) = Ok group1
     ∧ user ∈ default [] (Group.followingUsers group1)
     ∧ out = ApGroupService.acceptPostRequest (Group.name group1)
               (createAcceptActivity (Group.uri group1) (Payload.id data)
                                     (User.uri user))
               (setActivities s w1))
  ∧ fst out ≠ Ok (RBool false)
  ∧ groups (snd out) = groups w1.
Proof.
  intros Htype Hnodup Hgroup Huser Hsaves w1 out.
  pose proof (groupFind_elim _ _ _ Hgroup) as Hfind.
  pose proof (find_findById Group.id _ _ _ Hnodup Hfind) as Hfound.
  set (followers := relation User.id
                      (default [] (Group.followingUsers group) ++ [user])).
  set (group1 := Group.setFollowingUsers (Some followers) group).
  (* the world after the first handling *)
  assert (fst (GroupService.findLocalByName groupname w1) = Ok group1
          ∧ findById Group.id (Group.id group1) (groups w1) = Some group1
          ∧ users w1 = users w)
    as (Hgroup1 & Hfound1 & Husers).
  { subst w1.
    rewrite (handleIncoming_Follow_run _ _ _ _ _ _ Htype Hgroup Huser Hfound).
    destruct (Hsaves (activities w) (followEntity group data (activities w)))
      as (saved & s & ->).
    fold followers group1.
    match goal with
    | |- context [snd (ApGroupService.acceptPostRequest ?n ?d ?w0)] =>
        destruct (groupOutbox_frame n d w0) as (s' & d' & ->)
    end.
    simpl. split; [|split; [|done]].
    - erewrite groupFind_intro; [done|]. simpl.
      apply (find_upsert Group.id _ _ group); try done.
      apply (List.find_some _ _) in Hfind as [_ HP]. exact HP.
    - exact (findById_upsert Group.id group1 (groups w)). }
  assert (Huser1 : fst (UserService.findByUri (Payload.actor data) w1) = Ok user)
    by (by rewrite (userFindByUri_users _ w w1 Husers)).
  assert (Hagain : relation User.id (followers ++ [user]) = followers).
  { rewrite relation_stored by apply relation_NoDup.
    subst followers. rewrite relation_snoc. apply upsert_idem. }
  destruct (Hsaves (activities w1) (followEntity group1 data (activities w1)))
    as (saved & s & Hsave).
  assert (Hout : out = ApGroupService.acceptPostRequest (Group.name group1)
                         (createAcceptActivity (Group.uri group1)
                            (Payload.id data) (User.uri user))
                         (setActivities s w1)).
  { subst out.
    rewrite (handleIncoming_Follow_run _ _ _ _ _ _ Htype Hgroup1 Huser1 Hfound1).
    rewrite Hsave.
    change (default [] (Group.followingUsers group1)) with followers.
    rewrite Hagain.
    change (Group.setFollowingUsers (Some followers) group1) with group1.
    by rewrite (upsert_found Group.id group1 (groups w1) Hfound1). }
  split; [|split].
  - exists group1, s. split; [done|]. split; [apply relation_last | done].
  - rewrite Hout. apply groupOutbox_no_boolean.
  - rewrite Hout.
    match goal with
    | |- groups (snd (ApGroupService.acceptPostRequest ?n ?d ?w0)) = _ =>
        destruct (groupOutbox_frame n d w0) as (s' & d' & ->)
    end.
    reflexivity.
Qed.

End FollowMore.

(** ** More on the user services *)

Section UserMore.
Context {AS : Type} {activityService : ActivityService AS}
  {apPostService : ApPostService AS}.
Variable serialize : URIComponents.t → string.
Variable createCollection : list (option string) → Collection.t.

Lemma userFind_none (username : string) (w : World AS) :
  (∀ u, u ∈ users w →
        ¬ (User.name u = username ∧ User.server u = local w)) →
  UserService.findLocalByName username w
  = (Err (Error ("User " +:+ username +:+ " does not exist on this server")), w).
Proof.
  intros Hnone. unfold UserService.findLocalByName.
  destruct (List.find _ (users w)) as [u|] eqn:Hfind; [|done].
  apply List.find_some in Hfind as [Hin HP].
  apply andb_prop in HP as [Hn Hs].
  apply bool_decide_eq_true in Hn. apply bool_decide_eq_true in Hs.
  destruct (Hnone u); [by apply list_elem_of_In | done].
Qed.

(** A name that no local user has: the outbox rejects the post with an
    error that names the user, whatever the payload is; [getLocalUser]
    does not reject but resolves with [undefined], so that
    [getActorForUser] ends in a [TypeError]; [getLikes] answers
    [NotFound].  Nothing changes. *)
Theorem user_services_unknown_user (username : string) (data : Payload.t)
    (w : World AS) :
  (∀ u, u ∈ users w →
        ¬ (User.name u = username ∧ User.server u = local w)) →
  ApUserService.acceptPostRequest username data w
  = (Err (Error ("User " +:+ username +:+ " does not exist on this server")), w)
  ∧ ApUserService.getLocalUser username w = (Ok None, w)
  ∧ ApUserService.getActorForUser serialize username w = (Err TypeError, w)
  ∧ ApUserService.getLikes createCollection username w
    = (Err (NotFoundException
              ("User " +:+ username +:+ " does not exist on this server")), w).
Proof.
  intros Hnone. apply userFind_none in Hnone.
  assert (Hlocal : ApUserService.getLocalUser username w = (Ok None, w)).
  { unfold ApUserService.getLocalUser, tryCatch.
    unfold mbind, M_bind. by rewrite Hnone. }
  split; [|split; [|split]].
  - unfold ApUserService.acceptPostRequest.
    unfold mbind at 1. unfold M_bind at 1. by rewrite Hnone.
  - exact Hlocal.
  - unfold ApUserService.getActorForUser, tryCatch.
    unfold mbind at 1. unfold M_bind at 1. by rewrite Hlocal.
  - unfold ApUserService.getLikes, tryCatch.
    unfold mbind at 1. unfold M_bind at 1. by rewrite Hnone.
Qed.

(** The likes collection of a user is built from the URIs of the posts of
    the user's liked relation.  After [addLike] the post is among them;
    the posts of the relation are then those of before and the post, one
    for each post id, and liking a post that is in the relation already
    leaves the collection as it is. *)
Theorem getLikes_after_like (username : string) (user : User.t)
    (post : Post.t) (w : World AS) :
  NoDup (User.id <$> users w) →
  fst (UserService.findLocalByName username w) = Ok user →
  let liked := default [] (User.liked user) in
  let w1 := snd (UserService.addLike user post w) in
  ApUserService.getLikes createCollection username w
  = (Ok (createCollection (Post.uri <$> liked)), w)
  ∧ (∃ after,
       ApUserService.getLikes createCollection username w1
       = (Ok (createCollection (Post.uri <$> after)), w1)
       ∧ post ∈ after
       ∧ NoDup (Post.id <$> after)
       ∧ (∀ k, k ∈ Post.id <$> after
               ↔ k = Post.id post ∨ k ∈ Post.id <$> liked)
       ∧ (NoDup (Post.id <$> liked) → post ∈ liked → after = liked)).
Proof.
  intros Hnodup Huser liked w1.
  apply findLocalByName_find in Huser as Hfind.
  pose proof (find_findById User.id _ _ _ Hnodup Hfind) as Hrow.
  assert (Hrun : ∀ (u : User.t) (w0 : World AS),
             UserService.findLocalByName username w0 = (Ok u, w0) →
             findById User.id (User.id u) (users w0) = Some u →
             ApUserService.getLikes createCollection username w0
             = (Ok (createCollection (Post.uri <$> default [] (User.liked u))),
                w0)).
  { intros u w0 Hu Hr.
    unfold ApUserService.getLikes, UserService.getLikes, tryCatch.
    unfold mbind at 1. unfold M_bind at 1. rewrite Hu.
    unfold mbind, M_bind, mret, M_ret, gets, deref. simpl.
    by rewrite Hr. }
  split.
  - apply (Hrun user); [by apply find_findLocalByName | done].
  - exists (relation Post.id (liked ++ [post])).
    split; [|split; [|split; [|split]]].
    + subst w1. rewrite (addLike_run user user post w Hrow). simpl.
      fold liked.
      set (user' := User.setLiked (Some (relation Post.id (liked ++ [post])))
                                  user).
      apply (Hrun user').
      * apply find_findLocalByName. simpl.
        apply (find_upsert User.id _ _ user); try done.
        apply (List.find_some _ _) in Hfind as [_ HP]. exact HP.
      * exact (findById_upsert User.id user' (users w)).
    + apply relation_last.
    + apply relation_NoDup.
    + intros k. rewrite relation_keys, fmap_app, elem_of_app.
      rewrite fmap_cons, elem_of_cons, fmap_nil, elem_of_nil. tauto.
    + intros Hnd Hin. by apply relation_again.
Qed.

(** A [Like] is recorded before its activity is saved.  When the liked
    object does not resolve to a post the request is rejected with the
    error of the lookup and nothing changes; when the post resolves but
    the activity cannot be saved the request is rejected, and the like
    stays recorded. *)
Theorem like_not_rolled_back (username : string) (data : Payload.t)
    (user : User.t) (liked : list Post.t) (w : World AS) :
  Payload.content data = JNull →
  Payload.type data = "Like" →
  NoDup (User.id <$> users w) →
  fst (UserService.findLocalByName username w) = Ok user →
  User.liked user = Some liked →
  let out := ApUserService.acceptPostRequest username data w in
  (∀ e, getPostEntityByUri (Payload.object data) w = Err e → out = (Err e, w))
  ∧ (∀ post e s,
       getPostEntityByUri (Payload.object data) w = Ok post →
       save (activities w)
            (ApUserService.outboxEntity
               (User.setLiked (Some (liked ++ [post])) user) post data)
       = (Err e, s) →
       fst out = Err e
       ∧ findById User.id (User.id user) (users (snd out))
         = Some (User.setLiked (Some (relation Post.id (liked ++ [post]))) user)
       ∧ post ∈ relation Post.id (liked ++ [post])).
Proof.
  intros Hcontent Htype Hnodup Huser Hliked out.
  apply findLocalByName_find in Huser as Hfind.
  pose proof (find_findById User.id _ _ _ Hnodup Hfind) as Hrow.
  apply find_findLocalByName in Hfind. split.
  - intros e Hpost. subst out. unfold ApUserService.acceptPostRequest.
    unfold mbind at 1. unfold M_bind at 1. rewrite Hfind.
    rewrite Hcontent. simpl. rewrite Htype. simpl.
    unfold mbind at 1. unfold M_bind at 1. by rewrite Hpost.
  - intros post e s Hpost Hsave. subst out.
    rewrite (like_run _ _ _ _ _ Hcontent Htype Hfind Hrow Hpost).
    rewrite Hliked. simpl. rewrite Hsave. simpl.
    split; [done|]. split; [|apply relation_last].
    exact (findById_upsert User.id
             (User.setLiked (Some (relation Post.id (liked ++ [post]))) user)
             (users w)).
Qed.

End UserMore.

(** ** More on posts *)

Section PostMore.
Context {AS : Type}.

(** A soft delete writes the one row of the post and nothing else: the
    rows of other posts, the number of rows when the post was stored, and
    the other tables are as before; nothing is delivered.  Deleting the
    deleted post again succeeds and changes nothing. *)
Theorem softDelete_idempotent_and_local (post : Post.t) (w : World AS) :
  fst (PostService.isLocalPost post w) = Ok true →
  let w1 := snd (PostService.softDelete post w) in
  PostService.softDelete (Post.setDeleted true post) w1
  = (Ok (Post.setDeleted true post), w1)
  ∧ (∀ k, k ≠ Post.id post →
          findById Post.id k (posts w1) = findById Post.id k (posts w))
  ∧ (is_Some (findById Post.id (Post.id post) (posts w)) →
     length (posts w1) = length (posts w))
  ∧ groups w1 = groups w ∧ users w1 = users w
  ∧ activities w1 = activities w ∧ delivered w1 = delivered w.
Proof.
  unfold PostService.softDelete, PostService.isLocalPost, PostService.save.
  unfold mbind, M_bind, mret, M_ret, gets, modify, throw. simpl.
  intros [= Hlocal]. rewrite Hlocal. simpl. rewrite Hlocal. simpl.
  split; [|split; [|split]].
  - unfold setPosts. simpl.
    by rewrite (upsert_idem Post.id (Post.setDeleted true post)).
  - intros k Hk. by apply findById_upsert_ne.
  - intros Hstored.
    by apply (length_upsert_stored Post.id (Post.setDeleted true post)).
  - done.
Qed.

Variable serverAddress : string.
Variable serverPort : Port.
Variable isHttps : bool.
Variable serialize : URIComponents.t → string.

(** [uriFromLocalPost] fails for exactly the posts that have no URI and are
    not local, with an error that names the UUID.  A stored URI is
    returned as it is, for a foreign post as well, and the URI of a local
    post without one is built from the configured address.  The state is
    never changed. *)
Theorem uriFromLocalPost_cases (post : Post.t) (w : World AS) :
  let out := PostService.uriFromLocalPost serverAddress serverPort isHttps
               serialize post w in
  snd out = w
  ∧ ((∃ e, fst out = Err e)
     ↔ truthy (Post.uri post) = false
       ∧ fst (PostService.isLocalPost post w) = Ok false)
  ∧ (∀ e, fst out = Err e →
       ∃ msg, e = Error msg ∧ contains (Post.uuid post) msg)
  ∧ (∀ uri, Post.uri post = Some uri → uri ≠ "" → fst out = Ok uri)
  ∧ (truthy (Post.uri post) = false →
     fst (PostService.isLocalPost post w) = Ok true →
     fst out = Ok (serialize
                     (URIComponents.mk (if isHttps then "https" else "http")
                        serverAddress serverPort
                        ("/post/" +:+ Post.uuid post)))).
Proof.
  unfold PostService.uriFromLocalPost, PostService.uriFromUuid,
    PostService.isLocalPost.
  unfold mbind, M_bind, mret, M_ret, gets, throw. simpl.
  destruct (truthy (Post.uri post)) eqn:Huri; simpl.
  - split; [done|]. split; [|split; [|split]]; try done.
    + split; [by intros [e ?] | by intros [? _]].
    + intros uri E Hne. by rewrite E.
  - match goal with |- context [if ?b then _ else _] => destruct b eqn:Hlocal end;
      simpl.
    + split; [done|]. split; [|split; [|split]]; try done.
      * split; [by intros [e ?] | by intros [_ ?]].
      * intros uri E Hne. unfold truthy in Huri. rewrite E in Huri.
        by rewrite bool_decide_eq_true_2 in Huri.
    + split; [done|]. split; [|split; [|split]]; try done.
      * split; [done | by eexists].
      * intros e [= <-]. eexists. split; [done|]. apply contains_suffix.
      * intros uri E Hne. unfold truthy in Huri. rewrite E in Huri.
        by rewrite bool_decide_eq_true_2 in Huri.
Qed.

End PostMore.

(** ** Creating a user entry *)

Section CreateUser.
Context {AS : Type}.
Variable getIdForActor : string → Server.t → string.

Lemma find_app_none {A} (P : A → bool) (rows : list A) (x : A) :
  List.find P rows = None → P x = true → List.find P (rows ++ [x]) = Some x.
Proof.
  induction rows as [|r rows IH]; simpl; intros Hnone HP.
  - by rewrite HP.
  - destruct (P r); [discriminate|]. by apply IH.
Qed.

(** [createEmptyUserEntry]: a user name can be taken once.  When some
    user has the name, on this or on any other server, the call fails
    with an error that names it and nothing is stored.  Otherwise a row
    for a user of the local server is appended, [findLocalByName] finds
    that user, and a second call for the same name fails. *)
Theorem createEmptyUserEntry_once (username : string) (w : World AS) :
  let taken := Error ("Username " +:+ username +:+ " already in database") in
  (∀ u, u ∈ users w → User.name u = username →
     UserService.createEmptyUserEntry getIdForActor username w = (Err taken, w))
  ∧ ((∀ u, u ∈ users w → User.name u ≠ username) →
     ∃ created w1,
       UserService.createEmptyUserEntry getIdForActor username w
       = (Ok created, w1)
       ∧ users w1 = users w ++ [created]
       ∧ User.name created = username
       ∧ User.server created = local w
       ∧ (∀ u, u ∈ users w → User.id u ≠ User.id created)
       ∧ UserService.findLocalByName username w1 = (Ok created, w1)
       ∧ UserService.createEmptyUserEntry getIdForActor username w1
         = (Err taken, w1)).
Proof.
  intros taken.
  assert (Htaken : ∀ (w0 : World AS) u, u ∈ users w0 → User.name u = username →
            UserService.createEmptyUserEntry getIdForActor username w0
            = (Err taken, w0)).
  { intros w0 u Hin Hname.
    unfold UserService.createEmptyUserEntry, UserService.findByName.
    unfold mbind, M_bind, gets, throw. simpl.
    destruct (List.find _ (users w0)) as [u'|] eqn:Hfind; [done|].
    apply list_elem_of_In in Hin.
    pose proof (List.find_none _ _ Hfind u Hin) as HP. simpl in HP.
    by rewrite bool_decide_eq_true_2 in HP. }
  split; [apply Htaken|].
  intros Hfree.
  set (created := User.mk (freshKey User.id (users w))
                    (Some (getIdForActor username (local w))) username
                    (local w) None).
  assert (Hfresh : ∀ u, u ∈ users w → User.id u ≠ User.id created).
  { intros u Hu. pose proof (freshKey_above User.id (users w) u Hu). simpl. lia. }
  assert (Hnone : List.find (λ u, bool_decide (User.name u = username)) (users w)
                  = None).
  { destruct (List.find _ (users w)) as [u|] eqn:Hfind; [|done].
    apply List.find_some in Hfind as [Hin HP].
    apply bool_decide_eq_true in HP. apply list_elem_of_In in Hin.
    by destruct (Hfree u Hin). }
  exists created, (setUsers (users w ++ [created]) w).
  split; [|split; [|split; [|split; [|split; [|split]]]]]; try done.
  - unfold UserService.createEmptyUserEntry, UserService.findByName,
      UserService.save.
    unfold mbind, M_bind, mret, M_ret, gets, modify, throw. simpl.
    rewrite Hnone. simpl. unfold UserService.row. simpl. fold created.
    change (User.setLiked None created) with created.
    by rewrite (upsert_fresh User.id created (users w) Hfresh).
  - apply find_findLocalByName. simpl. apply find_app_none.
    + match goal with |- ?f = None => destruct f as [u|] eqn:Hfind end; [|done].
      apply List.find_some in Hfind as [Hin HP].
      apply andb_prop in HP as [HP _].
      apply bool_decide_eq_true in HP. apply list_elem_of_In in Hin.
      by destruct (Hfree u Hin).
    + simpl. by rewrite !bool_decide_eq_true_2.
  - apply (Htaken _ created); [|done]. simpl.
    apply elem_of_app. right. apply list_elem_of_here.
Qed.

End CreateUser.

(** ** The further properties on the sample *)

Section MoreSamples.
Import Sample.

(** [U1] joins the group followed by [U2] and [U3]. *)
Lemma addFollower_records_witness :
  let out := GroupService.addFollower (G None) U1 beforeFollow in
  fst out = Ok true
  ∧ (∃ stored,
       findById Group.id 1 (groups (snd out)) = Some stored
       ∧ let after := default [] (Group.followingUsers stored) in
         U1 ∈ after
         ∧ NoDup (User.id <$> after)
         ∧ (∀ k, k ∈ User.id <$> after ↔ k = 1 ∨ k ∈ User.id <$> [U2; U3])
         ∧ (NoDup (User.id <$> [U2; U3]) →
            ∀ u, u ∈ [U2; U3] → User.id u ≠ 1 → u ∈ after))
  ∧ (∀ k, k ≠ 1 →
       findById Group.id k (groups (snd out))
       = findById Group.id k (groups beforeFollow)).
Proof.
  apply (addFollower_records (G None) (G (Some [U2; U3])) U1 beforeFollow).
  reflexivity.
Defined.

Lemma addFollower_missing_group_witness :
  GroupService.addFollower ghostGroup U1 followed = (Err TypeError, followed).
Proof. apply addFollower_missing_group. reflexivity. Defined.

(** [U1] joins twice, and [U2], a follower already, joins again. *)
Lemma addFollower_twice_witness :
  let w1 := snd (GroupService.addFollower (G None) U1 beforeFollow) in
  GroupService.addFollower (G None) U1 w1 = (Ok true, w1)
  ∧ GroupService.addFollower (G None) U2 followed = (Ok true, followed).
Proof.
  split.
  - apply (addFollower_twice (G None) (G (Some [U2; U3])) U1 beforeFollow).
    reflexivity.
  - reflexivity.
Defined.

Lemma deliverToFollowers_without_source_witness :
  ApGroupService.deliverToFollowers (activityService := svc)
    orphanCreate (G None) lonely
  = (Ok orphanCreate, logDelivery orphanCreate [] lonely)
  ∧ ApGroupService.deliverToFollowers (activityService := svc)
      orphanCreate (G None) followed
    = (Err TypeError, followed).
Proof.
  split.
  - apply (proj1 (deliverToFollowers_without_source (activityService := svc)
                    orphanCreate (G None) (G (Some [])) lonely
                    eq_refl eq_refl)).
    reflexivity.
  - apply (proj2 (deliverToFollowers_without_source (activityService := svc)
                    orphanCreate (G None) (G (Some [U1; U2; U3])) followed
                    eq_refl eq_refl) U1 [U2; U3]).
    reflexivity.
Defined.

Lemma deliverToFollowers_never_echoes_witness :
  ∃ targets,
    delivered (snd (ApGroupService.deliverToFollowers (activityService := svc)
                      knownCreate (G None) followed))
    = delivered followed ++ [(knownCreate, targets)]
    ∧ (toJValue (User.uri U2) ∉ targets)
    ∧ (∀ f, f ∈ [U1; U2; U3] → User.uri f ≠ User.uri U2 →
            toJValue (User.uri f) ∈ targets)
    ∧ (∀ t, t ∈ targets → ∃ f, f ∈ [U1; U2; U3] ∧ t = toJValue (User.uri f)).
Proof.
  apply (deliverToFollowers_never_echoes (activityService := svc)
           knownCreate (G None) (G (Some [U1; U2; U3])) [U1; U2; U3] U2 followed);
    reflexivity.
Defined.

Lemma new_follower_is_relayed_to_witness :
  let w1 := snd (GroupService.addFollower (G None) U1 beforeFollow) in
  ∃ targets,
    delivered (snd (ApGroupService.deliverToFollowers (activityService := svc)
                      knownCreate (G None) w1))
    = delivered w1 ++ [(knownCreate, targets)]
    ∧ toJValue (User.uri U1) ∈ targets.
Proof.
  apply (new_follower_is_relayed_to (activityService := svc)
           knownCreate (G None) (G (Some [U2; U3])) U1 U2 beforeFollow).
  - reflexivity.
  - reflexivity.
  - discriminate.
Defined.

Lemma groupOutbox_Accept_unknown_request_witness :
  ApGroupService.acceptPostRequest (activityService := svc)
    "rocq" (acceptPayload "https://remote.example/activity/0") followed
  = (Err TypeError, followed).
Proof.
  apply (groupOutbox_Accept_unknown_request (activityService := svc)
           "rocq" _ (G (Some [U1; U2; U3])) followed); reflexivity.
Defined.

(** The Accept for the known activity, with [U1] reachable and not. *)
Lemma groupOutbox_Accept_delivery_witness :
  (∃ act, fst (ApGroupService.acceptPostRequest (activityService := svc)
                 "rocq" (acceptPayload noteUri) followed)
          = Ok (RPayload (Activity.activityObject act)))
  ∧ fst (ApGroupService.acceptPostRequest (activityService := svcU1down)
           "rocq" (acceptPayload noteUri) followed)
    = Err (Error "ECONNREFUSED").
Proof.
  split.
  - eexists.
    eapply (groupOutbox_Accept_delivery (activityService := svc)
              "rocq" (acceptPayload noteUri) (G (Some [U1; U2; U3]))
              knownCreate).
    + reflexivity.
    + reflexivity.
    + reflexivity.
    + vm_compute. reflexivity.
    + reflexivity.
  - eapply (groupOutbox_Accept_delivery (activityService := svcU1down)
              "rocq" (acceptPayload noteUri) (G (Some [U1; U2; U3]))
              knownCreate).
    + reflexivity.
    + reflexivity.
    + reflexivity.
    + vm_compute. reflexivity.
    + reflexivity.
Defined.

Lemma handleIncoming_unknown_Create_dropped_witness :
  ApGroupService.handleIncoming (activityService := svc)
    "rocq" (typed "Create") followed
  = (Ok RUndefined, followed).
Proof.
  apply (handleIncoming_unknown_Create_dropped (activityService := svc)
           "rocq" (typed "Create") (G (Some [U1; U2; U3])) followed);
    reflexivity.
Defined.

Lemma handleIncoming_Create_bad_audience_witness :
  ApGroupService.handleIncoming (activityService := svc)
    "rocq" (createPayloadTo (AudOther "as:Public")) followed
  = (Err (BadRequestException None), followed).
Proof.
  apply (handleIncoming_Create_bad_audience (activityService := svc)
           "rocq" _ (G (Some [U1; U2; U3])) knownCreate "as:Public" followed);
    reflexivity.
Defined.

(** The known [Create] relayed with [U1] unreachable, and with a store
    that cannot be written to. *)
Lemma handleIncoming_relay_witness :
  (∃ saved s targets,
     ApGroupService.handleIncoming (activityService := svcU1down)
       "rocq" createPayload followed
     = (Ok (RActivity saved),
        logDelivery saved targets (setActivities s followed))
     ∧ Payload.audience (Activity.activityObject saved)
       = AudArray [groupUri +:+ "/followers/"])
  ∧ ApGroupService.handleIncoming (activityService := svcReadOnly)
      "rocq" createPayload followed
    = (Err (Error "SQLITE_READONLY"), followed).
Proof.
  assert (Haud : ∀ repr, Payload.audience createPayload ≠ AudOther repr)
    by discriminate.
  split.
  - destruct (handleIncoming_relay (activityService := svcU1down)
                "rocq" createPayload (G (Some [U1; U2; U3])) knownCreate followed
                eq_refl eq_refl eq_refl eq_refl Haud)
      as (_ & _ & Hrelay).
    eexists _, _, _. split.
    + rewrite (Hrelay _ _ (G (Some [U1; U2; U3])) [U1; U2; U3] U2 eq_refl);
        reflexivity.
    + reflexivity.
  - destruct (handleIncoming_relay (activityService := svcReadOnly)
                "rocq" createPayload (G (Some [U1; U2; U3])) knownCreate followed
                eq_refl eq_refl eq_refl eq_refl Haud)
      as (_ & Hfail & _).
    by rewrite (Hfail (Error "SQLITE_READONLY") (activities followed) eq_refl).
Defined.

Lemma group_dispatch_unknown_group_witness :
  let e := Error "Group nowhere does not exist on this server" in
  ApGroupService.handleIncoming (activityService := svc)
    "nowhere" (typed "Foo") followed = (Err e, followed)
  ∧ ApGroupService.acceptPostRequest (activityService := svc)
      "nowhere" (typed "Foo") followed = (Err e, followed)
  ∧ ApGroupService.getLocalGroup "nowhere" followed = (Err e, followed).
Proof.
  apply (group_dispatch_unknown_group (activityService := svc)
           "nowhere" (typed "Foo") followed).
  intros g Hg [Hname _]. simpl in Hg.
  apply elem_of_cons in Hg as [->|Hg]; [discriminate Hname|].
  by apply elem_of_nil in Hg.
Defined.

Lemma tableStore_saves (st : list Activity.t) (a : Activity.t) :
  ∃ saved s, TableStore.save st a = (Ok saved, s).
Proof. by eexists _, _. Qed.

(** [U1] follows: it is stored as a follower, whether or not the Accept
    reaches it. *)
Lemma first_follow_records_witness :
  groups (snd (ApGroupService.handleIncoming (activityService := svcU1down)
                 "rocq" (followPayload U1) beforeFollow))
  = [G (Some [U2; U3; U1])]
  ∧ fst (ApGroupService.handleIncoming (activityService := svcU1down)
           "rocq" (followPayload U1) beforeFollow)
    = Err (Error "ECONNREFUSED").
Proof.
  destruct (first_follow_records (activityService := svcU1down)
              "rocq" (followPayload U1) (G (Some [U2; U3])) (G (Some [U2; U3]))
              U1 beforeFollow eq_refl eq_refl eq_refl eq_refl)
    as [Hsaved _].
  destruct (tableStore_saves (activities beforeFollow)
              (followEntity (activityService := svcU1down)
                 (G (Some [U2; U3])) (followPayload U1) (activities beforeFollow)))
    as (saved & s & Hsave).
  destruct (Hsaved saved s Hsave) as [Hout Hgroups].
  split; [exact Hgroups | reflexivity].
Defined.

(** [U1] follows while it cannot be reached, and follows again. *)
Lemma follow_retry_accepted_again_witness :
  let w1 := snd (ApGroupService.handleIncoming (activityService := svcU1down)
                   "rocq" (followPayload U1) beforeFollow) in
  let out := ApGroupService.handleIncoming (activityService := svcU1down)
               "rocq" (followPayload U1) w1 in
  fst out ≠ Ok (RBool false)
  ∧ groups (snd out) = groups w1
  ∧ groups w1 = [G (Some [U2; U3; U1])]
  ∧ length (delivered (snd out)) = 2.
Proof.
  destruct (follow_retry_accepted_again (activityService := svcU1down)
              "rocq" (followPayload U1) (G (Some [U2; U3])) U1 beforeFollow)
    as (_ & Hanswer & Hgroups).
  - reflexivity.
  - apply (bool_decide_unpack _). vm_compute. exact I.
  - reflexivity.
  - reflexivity.
  - apply tableStore_saves.
  - split; [exact Hanswer|]. split; [exact Hgroups|].
    split; vm_compute; reflexivity.
Defined.

Lemma user_services_unknown_user_witness :
  ApUserService.acceptPostRequest (activityService := svc) (apPostService := psvc)
    "nobody" (typed "Foo") followed
  = (Err (Error "User nobody does not exist on this server"), followed)
  ∧ ApUserService.getLocalUser "nobody" followed = (Ok None, followed)
  ∧ ApUserService.getActorForUser serializePlain "nobody" followed
    = (Err TypeError, followed)
  ∧ ApUserService.getLikes collect "nobody" followed
    = (Err (NotFoundException "User nobody does not exist on this server"),
       followed).
Proof.
  apply (user_services_unknown_user (activityService := svc)
           (apPostService := psvc) serializePlain collect "nobody"
           (typed "Foo") followed).
  intros u Hu [Hname _]. simpl in Hu.
  repeat (apply elem_of_cons in Hu as [->|Hu]; [discriminate Hname|]).
  by apply elem_of_nil in Hu.
Defined.

(** [U1] likes the local post, once and once more. *)
Lemma getLikes_after_like_witness :
  let w1 := snd (UserService.addLike U1 localPost followed) in
  ApUserService.getLikes collect "u1" followed = (Ok (collect []), followed)
  ∧ (∃ after,
       ApUserService.getLikes collect "u1" w1
       = (Ok (collect (Post.uri <$> after)), w1)
       ∧ localPost ∈ after)
  ∧ fst (ApUserService.getLikes collect "u1"
           (snd (UserService.addLike U1 localPost w1)))
    = fst (ApUserService.getLikes collect "u1" w1).
Proof.
  destruct (getLikes_after_like collect "u1" U1 localPost followed)
    as (Hbefore & after & Hafter & Hin & _).
  - apply (bool_decide_unpack _). vm_compute. exact I.
  - reflexivity.
  - split; [exact Hbefore|]. split; [|reflexivity].
    exists after. by split.
Defined.

(** A like of an unknown post, and a like with a store that cannot be
    written to. *)
Lemma like_not_rolled_back_witness :
  ApUserService.acceptPostRequest (activityService := svc) (apPostService := psvc)
    "u1" likeOfNothing followed
  = (Err (Error "EntityNotFound"), followed)
  ∧ fst (ApUserService.acceptPostRequest
           (activityService := svcReadOnly) (apPostService := psvc)
           "u1" likePayload followed)
    = Err (Error "SQLITE_READONLY")
  ∧ findById User.id 1
      (users (snd (ApUserService.acceptPostRequest
                     (activityService := svcReadOnly) (apPostService := psvc)
                     "u1" likePayload followed)))
    = Some (User.setLiked (Some [localPost]) U1).
Proof.
  assert (Hnodup : NoDup (User.id <$> users followed))
    by (apply (bool_decide_unpack _); vm_compute; exact I).
  split.
  - apply (proj1 (like_not_rolled_back (activityService := svc)
                    (apPostService := psvc) "u1" likeOfNothing U1 [] followed
                    eq_refl eq_refl Hnodup eq_refl eq_refl)).
    reflexivity.
  - destruct (proj2 (like_not_rolled_back (activityService := svcReadOnly)
                       (apPostService := psvc) "u1" likePayload U1 [] followed
                       eq_refl eq_refl Hnodup eq_refl eq_refl)
                localPost (Error "SQLITE_READONLY") (activities followed))
      as (Hfails & Hstored & _); [reflexivity | reflexivity |].
    split; [exact Hfails | exact Hstored].
Defined.

Lemma softDelete_idempotent_and_local_witness :
  let w1 := snd (PostService.softDelete localPost followed) in
  PostService.softDelete (Post.setDeleted true localPost) w1
  = (Ok (Post.setDeleted true localPost), w1)
  ∧ (∀ k, k ≠ 1 →
          findById Post.id k (posts w1) = findById Post.id k (posts followed))
  ∧ (is_Some (findById Post.id 1 (posts followed)) →
     length (posts w1) = length (posts followed))
  ∧ groups w1 = groups followed ∧ users w1 = users followed
  ∧ activities w1 = activities followed ∧ delivered w1 = delivered followed.
Proof.
  apply (softDelete_idempotent_and_local localPost followed). reflexivity.
Defined.

(** A remote post without URI, and a local one. *)
Lemma uriFromLocalPost_cases_witness :
  PostService.uriFromLocalPost "themis.example" (PortNumber 8443) true
    serializePlain (Post.mk 5 "77aa" None away "s" "c" false) followed
  = (Err (Error "No URI found for post 77aa"), followed)
  ∧ PostService.uriFromLocalPost "themis.example" (PortNumber 8443) true
      serializePlain (Post.mk 6 "88bb" (Some "") here "s" "c" false) followed
    = (Ok "https://themis.example:8443/post/88bb", followed).
Proof.
  split.
  - destruct (uriFromLocalPost_cases "themis.example" (PortNumber 8443) true
                serializePlain (Post.mk 5 "77aa" None away "s" "c" false)
                followed) as (Hw & Hfail & _).
    destruct (proj2 Hfail (conj eq_refl eq_refl)) as [e He].
    reflexivity.
  - destruct (uriFromLocalPost_cases "themis.example" (PortNumber 8443) true
                serializePlain (Post.mk 6 "88bb" (Some "") here "s" "c" false)
                followed) as (Hw & _ & _ & _ & Hlocal).
    specialize (Hlocal eq_refl eq_refl). reflexivity.
Defined.

(** ["u1"] is taken; ["ada"] is free, once. *)
Lemma createEmptyUserEntry_once_witness :
  UserService.createEmptyUserEntry localId "u1" followed
  = (Err (Error "Username u1 already in database"), followed)
  ∧ ∃ created w1,
      UserService.createEmptyUserEntry localId "ada" followed = (Ok created, w1)
      ∧ User.id created = 4
      ∧ User.uri created = Some "https://themis.example:8443/user/ada"
      ∧ UserService.findLocalByName "ada" w1 = (Ok created, w1)
      ∧ UserService.createEmptyUserEntry localId "ada" w1
        = (Err (Error "Username ada already in database"), w1).
Proof.
  destruct (createEmptyUserEntry_once localId "u1" followed) as [Htaken _].
  destruct (createEmptyUserEntry_once localId "ada" followed) as [_ Hfree].
  split.
  - apply (Htaken U1); [|reflexivity]. simpl. apply list_elem_of_here.
  - destruct Hfree as (created & w1 & Hrun & _ & _ & _ & _ & Hfind & Hagain).
    { intros u Hu. simpl in Hu.
      repeat (apply elem_of_cons in Hu as [->|Hu]; [discriminate|]).
      by apply elem_of_nil in Hu. }
    exists created, w1.
    assert (created = User.mk 4 (Some "https://themis.example:8443/user/ada")
                        "ada" here None) as Hc.
    { vm_compute in Hrun. by injection Hrun as <- _. }
    repeat split; try done; by rewrite Hc.
Defined.

End MoreSamples.
